(** * sticker-bot: a shallow embedding of [bot.py]

    The bot converts media sent over Telegram into stickers and keeps one
    static and one video sticker set per user.  This development embeds the
    functions of [bot.py] and states the properties of its specification
    against them.

    Layout:
    - [PyStr]      Python [str] values as sequences of Unicode code points,
                   with the few [str] methods the bot uses;
    - [Names]      [sanitize_username] and the set name and title;
    - [Caption]    the emoji taken from the caption in [handle_media];
    - [Tasks]      exceptions, calls and the programs built from them;
    - [Static]     [image_to_sticker_webp], with binary64 arithmetic;
    - [Api]        the objects and calls of the Bot API;
    - [Download]   [tg_download_to_bytes];
    - [Video]      [ensure_ffmpeg] and [video_to_sticker_webm], with a model
                   of the file system;
    - [Sets]       [get_or_create_set] and [add_to_set], with a model of the
                   sticker-set registry of the platform;
    - [Handler]    [handle_media];
    - [Ffmpeg]     what the options passed to the transcoder ask for;
    - [Spec]       the rules of the specification in its own words.
    The properties follow the definitions. *)

From Stdlib Require Import ZArith NArith List String Ascii DecimalString Floats Lia.
From stdpp Require Import base option list gmap strings.

Local Open Scope Z_scope.

(** ** Python strings *)

Module PyStr.

(** A Python [str] is a sequence of Unicode code points: [len] counts code
    points and [strip], [lower] and [re.sub] work code point by code point. *)
Abbreviation str := (list N).

(** An ASCII literal of the source. *)
Definition lit (s : string) : str :=
  (fun a => N_of_ascii a) <$> list_ascii_of_string s.

(** [str(n)] for a Python [int]. *)
Definition str_of_int (n : Z) : str :=
  lit (NilZero.string_of_int (Z.to_int n)).

(** Truth value of a string: [not s] holds for the empty string only. *)
Definition truthy (s : str) : bool :=
  match s with [] => false | _ => true end.

(** [f"{x}"] where [x] may be [None]. *)
Definition format_opt (x : option str) : str :=
  match x with Some s => s | None => lit "None" end.

(** [x or d] on strings, where [x] may be [None]. *)
Definition or_else (x : option str) (d : str) : str :=
  match x with
  | Some s => if truthy s then s else d
  | None => d
  end.

Definition in_range (lo hi c : N) : bool := ((lo <=? c) && (c <=? hi))%N.

(** The code points [str.isspace] accepts; [str.strip()] removes exactly
    these from both ends. *)
Definition isspace (c : N) : bool :=
  in_range 9 13 c || in_range 28 32 c || (c =? 133)%N || (c =? 160)%N
  || (c =? 5760)%N || in_range 8192 8202 c || in_range 8232 8233 c
  || (c =? 8239)%N || (c =? 8287)%N || (c =? 12288)%N.

Fixpoint lstrip (s : str) : str :=
  match s with
  | c :: s' => if isspace c then lstrip s' else s
  | [] => []
  end.

Definition rstrip (s : str) : str := reverse (lstrip (reverse s)).

Definition strip (s : str) : str := rstrip (lstrip s).

(** The character class [[a-zA-Z0-9_]] of the pattern in [sanitize_username]. *)
Definition word_char (c : N) : bool :=
  in_range 97 122 c || in_range 65 90 c || in_range 48 57 c || (c =? 95)%N.

(** [re.sub(p, repl, s)] for a pattern [p] that is one character class:
    every code point the class matches is replaced by [repl]. *)
Definition re_sub_class (p : N -> bool) (repl s : str) : str :=
  s ≫= (fun c => if p c then repl else [c]).

Definition is_ascii (c : N) : bool := (c <? 128)%N.

Definition ascii_lower (c : N) : N :=
  if in_range 65 90 c then (c + 32)%N else c.

(** [str.lower].  On a string of ASCII code points it maps A-Z to a-z and
    keeps the rest.  The case tables for other code points belong to the
    Python runtime; they enter as the parameter [unicode_lower]. *)
Class Runtime := {
  unicode_lower : str -> str;
  (** [Path(p).suffix] of pathlib. *)
  path_suffix : str -> str;
  (** [b.decode(errors='ignore')] *)
  decode_ignore : list Byte.byte -> str;
}.

Definition lower `{Runtime} (s : str) : str :=
  if forallb is_ascii s then ascii_lower <$> s else unicode_lower s.

End PyStr.
Export PyStr.

(** ** Configuration constants *)

(** [DEFAULT_EMOJI]: the single code point U+1F9E9. *)
Definition DEFAULT_EMOJI : str := [129513%N].
Definition STATIC_SUFFIX : str := lit "_static".
Definition VIDEO_SUFFIX : str := lit "_video".

(** [kind] ranges over the two values the assertion of [get_or_create_set]
    admits. *)
Inductive Kind := static | video.

#[global] Instance Kind_eq_dec : EqDecision Kind.
Proof. solve_decision. Defined.

(** ** Set names *)

Module Names.
Section WithRuntime.
Context `{Runtime}.

Definition sanitize_username (username : str) (user_id : Z) : str :=
  if negb (truthy username) then lit "user" ++ str_of_int user_id
  else lower (re_sub_class (fun c => negb (word_char c)) (lit "_") username).

Record User := {
  user_id : Z;
  username : option str;
  first_name : str;
}.

(** The name and title computed at the head of [get_or_create_set]. *)
Definition set_name (user : User) (bot_username : str) (kind : Kind) : str :=
  let uname := sanitize_username (or_else (username user) []) (user_id user) in
  let suffix := if decide (kind = static) then STATIC_SUFFIX else VIDEO_SUFFIX in
  uname ++ suffix ++ lit "_by_" ++ bot_username.

Definition set_title (user : User) (kind : Kind) : str :=
  or_else (Some (first_name user)) (lit "User") ++ lit "'s "
  ++ (if decide (kind = static) then lit "Static" else lit "Video")
  ++ lit " Stickers".

End WithRuntime.
End Names.
Export Names.

(** ** The emoji of a message *)

Module Caption.

(** Lines 239-240 of [handle_media]: the caption is stripped, and used as the
    emoji when it is non-empty and at most 10 code points long. *)
Definition caption_emoji (caption : option str) : str :=
  let caption := strip (or_else caption []) in
  if truthy caption && (length caption <=? 10)%nat then caption
  else DEFAULT_EMOJI.

(** [emoji or DEFAULT_EMOJI], the single entry of [emoji_list] in
    [add_to_set]. *)
Definition bound_emoji (emoji : str) : str := or_else (Some emoji) DEFAULT_EMOJI.

(** The tag that ends up on the sticker of a message with this caption. *)
Definition sticker_tag (caption : option str) : str :=
  bound_emoji (caption_emoji caption).

End Caption.
Export Caption.

(** ** Exceptions and results *)

Module Tasks.

Abbreviation bytes := (list Byte.byte).

(** The exceptions that occur in the bot.  [CancelledError] stands for the
    exceptions below [BaseException] only: a handler [except Exception] does
    not catch it. *)
Inductive exn :=
| RuntimeError (msg : str)
| AssertionError
| ZeroDivisionError (msg : str)
| ValueError (msg : str)
| OverflowError (msg : str)
| IndexError (msg : str)
| OSError (msg : str)
| UnidentifiedImageError (msg : str)
| AttributeError (msg : str)
| TelegramError (msg : str)
| CancelledError.

Definition is_Exception (e : exn) : bool :=
  match e with CancelledError => false | _ => true end.

(** [str(e)] *)
Definition exn_str (e : exn) : str :=
  match e with
  | RuntimeError m | ZeroDivisionError m | ValueError m | OverflowError m
  | IndexError m | OSError m | UnidentifiedImageError m | AttributeError m
  | TelegramError m => m
  | AssertionError | CancelledError => []
  end.

(** [type(e).__name__]: the class of the exception, by which an [except]
    clause tells exceptions apart. *)
Definition exn_class (e : exn) : str :=
  match e with
  | RuntimeError _ => lit "RuntimeError"
  | AssertionError => lit "AssertionError"
  | ZeroDivisionError _ => lit "ZeroDivisionError"
  | ValueError _ => lit "ValueError"
  | OverflowError _ => lit "OverflowError"
  | IndexError _ => lit "IndexError"
  | OSError _ => lit "OSError"
  | UnidentifiedImageError _ => lit "UnidentifiedImageError"
  | AttributeError _ => lit "AttributeError"
  | TelegramError _ => lit "TelegramError"
  | CancelledError => lit "CancelledError"
  end.

Inductive result (A : Type) :=
| Ok (a : A)
| Err (e : exn).
Arguments Ok {A} a.
Arguments Err {A} e.

#[global] Instance result_ret : MRet result := fun A a => Ok a.
#[global] Instance result_bind : MBind result := fun A B f r =>
  match r with Ok a => f a | Err e => Err e end.

(** A program over the calls [E]: it returns, raises, or performs a call and
    goes on with what the call returned or raised.  In a coroutine every
    awaited call is such a node, and these nodes are the only places where
    another coroutine can run in between. *)
Inductive Task (E : Type -> Type) (A : Type) : Type :=
| Ret (a : A)
| Raise (e : exn)
| Call {X : Type} (c : E X) (k : result X -> Task E A).
Arguments Ret {E A} a.
Arguments Raise {E A} e.
Arguments Call {E A X} c k.

Section TaskOps.
Context {E : Type -> Type}.

Fixpoint bind {A B} (t : Task E A) (f : A -> Task E B) : Task E B :=
  match t with
  | Ret a => f a
  | Raise e => Raise e
  | Call c k => Call c (fun r => bind (k r) f)
  end.

(** A call whose exception is not handled at the call site. *)
Definition call {X} (c : E X) : Task E X :=
  Call c (fun r => match r with Ok x => Ret x | Err e => Raise e end).

(** [try: t except Exception as e: h e] *)
Fixpoint try_except {A} (t : Task E A) (h : exn -> Task E A) : Task E A :=
  match t with
  | Ret a => Ret a
  | Raise e => if is_Exception e then h e else Raise e
  | Call c k => Call c (fun r => try_except (k r) h)
  end.

(** [try: t finally: c], which is also how a [with] block leaves its
    context manager: [c] runs on return and on every exception. *)
Fixpoint finally {A} (t : Task E A) (c : Task E unit) : Task E A :=
  match t with
  | Ret a => bind c (fun _ => Ret a)
  | Raise e => bind c (fun _ => Raise e)
  | Call x k => Call x (fun r => finally (k r) c)
  end.

Definition of_result {A} (r : result A) : Task E A :=
  match r with Ok a => Ret a | Err e => Raise e end.

(** The exceptions a program raises by its own [raise] statements: those
    it comes to when the calls before have returned. *)
Fixpoint raises {A} (t : Task E A) (e : exn) : Prop :=
  match t with
  | Ret _ => False
  | Raise e' => e' = e
  | Call c k => ∃ x, raises (k (Ok x)) e
  end.

(** Running a program in a world [W] whose calls are answered by [handle].
    The trace lists the calls performed with their results, oldest first. *)
Definition handler (W : Type) := forall X, E X -> W -> result X * W.

Record event := Ev { ev_type : Type; ev_call : E ev_type; ev_result : result ev_type }.
Arguments Ev {_} _ _.

Fixpoint run {W A} (handle : handler W) (t : Task E A) (w : W)
  : result A * W * list event :=
  match t with
  | Ret a => (Ok a, w, [])
  | Raise e => (Err e, w, [])
  | Call c k =>
      let '(r, w') := handle _ c w in
      let '(res, w'', tr) := run handle (k r) w' in
      (res, w'', Ev c r :: tr)
  end.

(** One step of a coroutine: up to and including its next call. *)
Definition step {W A} (handle : handler W) (t : Task E A) (w : W)
  : Task E A * W :=
  match t with
  | Call c k => let '(r, w') := handle _ c w in (k r, w')
  | _ => (t, w)
  end.

Definition outcome {W A} (handle : handler W) (t : Task E A) (w : W) : result A * W :=
  fst (run handle t w).

(** Two coroutines on one event loop.  The schedule says which of them the
    loop resumes next ([true]: the first); when the schedule is used up the
    first runs to its end and then the second. *)
Fixpoint interleave {W A B} (handle : handler W) (sched : list bool)
  (t1 : Task E A) (t2 : Task E B) (w : W) : result A * result B * W :=
  match sched with
  | [] =>
      let '(r1, w1) := outcome handle t1 w in
      let '(r2, w2) := outcome handle t2 w1 in
      (r1, r2, w2)
  | true :: sched' =>
      let '(t1', w') := step handle t1 w in
      interleave handle sched' t1' t2 w'
  | false :: sched' =>
      let '(t2', w') := step handle t2 w in
      interleave handle sched' t1 t2' w'
  end.

End TaskOps.
Arguments Ev {E ev_type} ev_call ev_result.
Arguments event : clear implicits.

#[global] Instance Task_ret {E} : MRet (Task E) := fun A a => Ret a.
#[global] Instance Task_bind {E} : MBind (Task E) := fun A B f t => bind t f.

End Tasks.
Export Tasks.

(** ** Static stickers *)

Module Static.

(** *** Python arithmetic on [float]

    A Python [float] is an IEEE 754 binary64 number, which is what the
    primitive type [float] is. *)

(** [float(n)]: the nearest binary64 number, ties to even. *)
Definition float_of_int (n : Z) : result float :=
  let f := SF2Prim (binary_normalize prec emax n 0 false) in
  if PrimFloat.is_infinity f
  then Err (OverflowError (lit "int too large to convert to float"))
  else Ok f.

(** [int(x)]: truncation towards zero. *)
Definition int_of_float (x : float) : result Z :=
  match Prim2SF x with
  | S754_zero _ => Ok 0
  | S754_finite s m e =>
      let a := if (0 <=? e) then Z.shiftl (Z.pos m) e
               else Z.shiftr (Z.pos m) (- e) in
      Ok (if s then - a else a)
  | S754_infinity _ =>
      Err (OverflowError (lit "cannot convert float infinity to integer"))
  | S754_nan => Err (ValueError (lit "cannot convert float NaN to integer"))
  end.

(** [x / n] for a float [x] and an int [n]. *)
Definition float_div_int (x : float) (n : Z) : result float :=
  d ← float_of_int n;
  if PrimFloat.eqb d PrimFloat.zero
  then Err (ZeroDivisionError (lit "float division by zero"))
  else Ok (PrimFloat.div x d).

(** [n * x] for an int [n] and a float [x]. *)
Definition int_mul_float (n : Z) (x : float) : result float :=
  d ← float_of_int n;
  Ok (PrimFloat.mul d x).

(** *** Images

    An image is represented by its mode and its size (width, height); the
    pixel values are not observed by any property below.  Decoding and the
    WEBP encoder belong to Pillow and enter as parameters. *)
Inductive Mode := RGBA | OtherMode (name : str).

Record Image := { im_mode : Mode; im_size : Z * Z }.

Class Pillow := {
  (** [Image.open(io.BytesIO(b))]; fails on bytes that are no image. *)
  image_open : bytes -> result Image;
  (** [im.save(out, format="WEBP", method=m, quality=q)], the bytes written. *)
  webp_save : Image -> Z -> Z -> bytes;
}.

Definition convert (m : Mode) (im : Image) : Image :=
  {| im_mode := m; im_size := im_size im |}.

(** [im.resize(size, Image.LANCZOS)]; Pillow rejects an empty target. *)
Definition resize (im : Image) (size : Z * Z) : result Image :=
  if (size.1 <? 1) || (size.2 <? 1)
  then Err (ValueError (lit "height and width must be > 0"))
  else Ok {| im_mode := im_mode im; im_size := size |}.

(** Lines 96-99 of [image_to_sticker_webp]. *)
Definition fit_512 (im : Image) : result Image :=
  let '(w, h) := im_size im in
  scale ← float_div_int 512%float (Z.max w h);
  if PrimFloat.ltb scale 1%float then
    w' ← int_mul_float w scale ≫= int_of_float;
    h' ← int_mul_float h scale ≫= int_of_float;
    resize im (w', h')
  else Ok im.

Definition image_to_sticker_webp `{Pillow} (src_bytes : bytes) : result bytes :=
  im ← image_open src_bytes;
  let im := convert RGBA im in
  im ← fit_512 im;
  Ok (webp_save im 6 95).

End Static.
Export Static.

(** ** Telegram objects and the calls of the Bot API *)

Module Api.

Record File := { file_id : str; file_path : str }.

(** A message as far as the bot reads it.  An attachment is given by the
    file identifier its [get_file] asks for; [photo] lists the sizes of a
    photo, smallest first, and is empty when there is none. *)
Record Message := {
  photo : list str;
  animation : option str;
  video_att : option str;
  document : option str;
  caption : option str;
}.

Record Update := {
  message : option Message;
  effective_user : User;
  effective_chat : Z;
}.

Record InputFile := { content : bytes; filename : str }.
Record InputSticker := { sticker : InputFile; emoji_list : list str }.

(** [telegram.StickerFormat] has the members STATIC, ANIMATED and VIDEO,
    and no others. *)
Inductive StickerFormat := STATIC | ANIMATED | VIDEO.
Inductive StickerType := REGULAR.

Record Sticker := {
  st_file_id : str;
  st_emoji : list str;
  st_content : bytes;
}.

Record StickerSet := {
  ss_name : str;
  ss_title : str;
  ss_owner : Z;
  ss_format : StickerFormat;
  stickers : list Sticker;
}.

Inductive ChatAction := UPLOAD_DOCUMENT.

(** The two texts [handle_media] replies with, by what they are built from:
    the title and name of the set, or the exception. *)
Inductive Reply :=
| Added (set_title set_name : str)
| Failed (detail : str).

Inductive Sent :=
| SentAction (chat_id : Z) (action : ChatAction)
| SentSticker (fid : str)
| SentText (text : Reply).

Inductive LogLine :=
| Warning (msg : str)
| Exception (msg : str).

(** What the bot asks of the platform, indexed by what the call returns.
    [Log] is the one local effect among them, a line written by [logger]. *)
Inductive api : Type -> Type :=
| GetMe : api User
| SendChatAction (chat_id : Z) (action : ChatAction) : api unit
| ReplySticker (fid : str) : api unit
| ReplyText (text : Reply) : api unit
| GetFile (fid : str) : api File
| DownloadAsBytearray (f : File) : api bytes
| GetStickerSet (name : str) : api StickerSet
| CreateNewStickerSet (user_id : Z) (name title : str)
    (stickers : list InputSticker) (sticker_format : StickerFormat)
    (sticker_type : StickerType) : api unit
| DeleteStickerFromSet (fid : str) : api unit
| AddStickerToSet (user_id : Z) (name : str) (sticker : InputSticker) : api unit
| Log (line : LogLine) : api unit.

End Api.
Export Api.

(** ** Downloading the media of a message *)

Module Download.
Section WithRuntime.
Context `{Runtime}.

Definition download (fid : str) : Task api (File * bytes) :=
  file ← call (GetFile fid);
  b ← call (DownloadAsBytearray file);
  mret (file, b).

Definition tg_download_to_bytes (update : Update) : Task api (bytes * str) :=
  match message update with
  | None => Raise (RuntimeError (lit "No message to process."))
  | Some msg =>
      match last (photo msg), animation msg, video_att msg, document msg with
      | Some fid, _, _, _ =>
          '(_, b) ← download fid;
          mret (b, lit ".jpg")
      | None, Some fid, _, _ =>
          '(_, b) ← download fid;
          mret (b, lit ".gif")
      | None, None, Some fid, _ =>
          '(file, b) ← download fid;
          let ext := or_else (Some (lower (path_suffix (file_path file)))) (lit ".mp4") in
          mret (b, ext)
      | None, None, None, Some fid =>
          '(file, b) ← download fid;
          let ext := lower (path_suffix (file_path file)) in
          mret (b, or_else (Some ext) (lit ".bin"))
      | None, None, None, None =>
          Raise (RuntimeError (lit "Unsupported message type."))
      end
  end.

End WithRuntime.
End Download.
Export Download.

(** ** Video stickers *)

Module Video.

Record CompletedProcess := { returncode : Z; stderr : bytes }.

(** The calls into the operating system made by [video_to_sticker_webm]. *)
Inductive os : Type -> Type :=
| Which (cmd : str) : os (option str)
| Mkdtemp : os str
| Rmtree (dir : str) : os unit
| WriteBytes (path : str) (data : bytes) : os unit
| SubprocessRun (cmd : list str) : os CompletedProcess
| PathExists (path : str) : os bool
| ReadBytes (path : str) : os bytes.

(** [Path(dir) / name], as the string passed on. *)
Definition path_join (dir name : str) : str := dir ++ lit "/" ++ name.

(** [with tempfile.TemporaryDirectory() as td: body td] *)
Definition with_TemporaryDirectory {A} (body : str -> Task os A) : Task os A :=
  td ← call Mkdtemp;
  finally (body td) (call (Rmtree td)).

(** The default of [FfmpegPaths.ffmpeg], computed once when the module is
    loaded; its value [ff] is a parameter of the functions below. *)
Definition FfmpegPaths_ffmpeg : Task os str :=
  p ← call (Which (lit "ffmpeg"));
  mret (or_else p (lit "ffmpeg")).

Definition ensure_ffmpeg (ff : str) : Task os unit :=
  p ← call (Which ff);
  if negb (truthy (or_else p []))
  then Raise (RuntimeError
         (lit "FFmpeg not found. Please install FFmpeg and ensure it's in PATH."))
  else mret tt.

(** The argument vector handed to [subprocess.run]. *)
Definition ffmpeg_cmd (ff in_path out_path : str) : list str :=
  [ ff; lit "-y";
    lit "-i"; in_path;
    lit "-an";
    lit "-t"; lit "3";
    lit "-vf";
    lit "scale='min(512,iw)':-2:force_original_aspect_ratio=decrease,fps=30";
    lit "-c:v"; lit "libvpx-vp9";
    lit "-b:v"; lit "420k";
    lit "-crf"; lit "32";
    lit "-deadline"; lit "realtime";
    out_path ].

Section WithRuntime.
Context `{Runtime}.

Definition video_to_sticker_webm (ff : str) (src_bytes : bytes) : Task os bytes :=
  ensure_ffmpeg ff;;
  with_TemporaryDirectory (fun td =>
    let in_path := path_join td (lit "in.bin") in
    let out_path := path_join td (lit "out.webm") in
    call (WriteBytes in_path src_bytes);;
    let cmd := ffmpeg_cmd ff in_path out_path in
    proc ← call (SubprocessRun cmd);
    made ← (if negb (returncode proc =? 0) then mret false
            else call (PathExists out_path));
    if negb made
    then Raise (RuntimeError
           (lit "FFmpeg failed: " ++ take 500 (decode_ignore (stderr proc))))
    else call (ReadBytes out_path)).

End WithRuntime.

(** *** The file system

    Files by path, the directories, what [shutil.which] finds, and a counter
    from which [mkdtemp] draws its names. *)
Record FS := {
  files : gmap str bytes;
  dirs : gset str;
  on_path : str -> option str;
  tmp_count : Z;
}.

Definition tmp_name (fs : FS) : str := lit "/tmp/tmp" ++ str_of_int (tmp_count fs).

(** [p] lies inside the directory [dir]. *)
Definition inside (dir p : str) : Prop := (dir ++ lit "/") `prefix_of` p.

#[global] Instance inside_dec dir p : Decision (inside dir p).
Proof. unfold inside. apply _. Defined.

Definition rmtree (dir : str) (fs : FS) : FS :=
  {| files := filter (fun kv => ¬ inside dir kv.1) (files fs);
     dirs := filter (fun d => d ≠ dir ∧ ¬ inside dir d) (dirs fs);
     on_path := on_path fs;
     tmp_count := tmp_count fs |}.

(** The operating system answers the calls.  What a started program does
    is not fixed: [exec] is any function from the argument vector and the
    file system to the outcome of [subprocess.run] and the file system the
    program leaves behind. *)
Definition os_handle (exec : list str -> FS -> result CompletedProcess * FS)
  : handler (E := os) FS :=
  fun X c =>
    match c in os X return FS -> result X * FS with
    | Which cmd => fun fs => (Ok (on_path fs cmd), fs)
    | Mkdtemp => fun fs =>
        (Ok (tmp_name fs),
         {| files := files fs; dirs := {[ tmp_name fs ]} ∪ dirs fs;
            on_path := on_path fs; tmp_count := tmp_count fs + 1 |})
    | Rmtree dir => fun fs => (Ok tt, rmtree dir fs)
    | WriteBytes path data => fun fs =>
        (Ok tt,
         {| files := <[ path := data ]> (files fs); dirs := dirs fs;
            on_path := on_path fs; tmp_count := tmp_count fs |})
    | SubprocessRun cmd => fun fs => exec cmd fs
    | PathExists path => fun fs =>
        (Ok (bool_decide (is_Some (files fs !! path) ∨ path ∈ dirs fs)), fs)
    | ReadBytes path => fun fs =>
        match files fs !! path with
        | Some b => (Ok b, fs)
        | None => (Err (OSError (lit "No such file or directory")), fs)
        end
    end.

End Video.
Export Video.

(** ** Sticker sets *)

Module Sets.
Section WithRuntime.
Context `{Runtime} `{Pillow}.

(** The placeholder of a new set: a transparent 32x32 image saved as WEBP
    with Pillow's default effort and quality. *)
Definition placeholder : bytes :=
  webp_save {| im_mode := RGBA; im_size := (32, 32) |} 4 80.

Definition placeholder_sticker : InputSticker :=
  {| sticker := {| content := placeholder; filename := lit "ph.webp" |};
     emoji_list := [DEFAULT_EMOJI] |}.

(** The first [try] block of [get_or_create_set]: whether the lookup
    returned.  [except Exception: pass] answers every exception with "no". *)
Definition lookup_set (name : str) : Task api bool :=
  try_except (call (GetStickerSet name);; mret true) (fun _ => mret false).

(** The second [try] block: fetch the new set and delete its first sticker. *)
Definition remove_placeholder (name : str) : Task api unit :=
  try_except
    (stset ← call (GetStickerSet name);
     match stickers stset with
     | s :: _ => call (DeleteStickerFromSet (st_file_id s))
     | [] => mret tt
     end)
    (fun e => call (Log (Warning (lit "Couldn't delete placeholder: " ++ exn_str e)))).

(** Line 174: [StickerFormat.WEBP if kind == "static" else
    StickerFormat.VIDEO].  The enumeration has no member WEBP, so for kind
    static the look-up of the attribute raises [AttributeError("WEBP")]. *)
Definition sticker_format (kind : Kind) : Task api StickerFormat :=
  if decide (kind = static) then Raise (AttributeError (lit "WEBP"))
  else mret VIDEO.

(** [get_or_create_set] from the placeholder on. *)
Definition create_set (user : User) (kind : Kind) (name title : str)
  : Task api (str * str) :=
  fmt ← sticker_format kind;
  call (CreateNewStickerSet (user_id user) name title [placeholder_sticker]
          fmt REGULAR);;
  remove_placeholder name;;
  mret (name, title).

Definition get_or_create_set (update : Update) (kind : Kind) : Task api (str * str) :=
  let user := effective_user update in
  bot_user ← call GetMe;
  let name := set_name user (format_opt (username bot_user)) kind in
  let title := set_title user kind in
  lookup_set name ≫= fun found : bool =>
  if found then mret (name, title)
  else create_set user kind name title.

Definition add_to_set (update : Update) (name : str) (sticker_bytes : bytes)
  (kind : Kind) (emoji : str) : Task api str :=
  let input_sticker :=
    if decide (kind = static) then
      {| sticker := {| content := sticker_bytes; filename := lit "sticker.webp" |};
         emoji_list := [bound_emoji emoji] |}
    else
      {| sticker := {| content := sticker_bytes; filename := lit "sticker.webm" |};
         emoji_list := [bound_emoji emoji] |} in
  call (AddStickerToSet (user_id (effective_user update)) name input_sticker);;
  stset ← call (GetStickerSet name);
  match last (stickers stset) with
  | Some s => mret (st_file_id s)
  | None => Raise (IndexError (lit "list index out of range"))
  end.

End WithRuntime.

(** *** The platform

    The registry of sticker sets as the Bot API presents it: a set is found
    when and only when it was created, and a name can be taken once.  Which
    names the platform admits is left open ([accepts]). *)
Record Platform := {
  bot_account : User;
  registry : gmap str StickerSet;
  stored : gmap str (str * bytes);
  next_id : Z;
  accepts : str -> bool;
  sent : list Sent;
  logged : list LogLine;
}.

Definition with_registry (p : Platform) (reg : gmap str StickerSet) (n : Z) : Platform :=
  {| bot_account := bot_account p; registry := reg; stored := stored p;
     next_id := n; accepts := accepts p; sent := sent p; logged := logged p |}.

Definition with_sent (p : Platform) (x : Sent) : Platform :=
  {| bot_account := bot_account p; registry := registry p; stored := stored p;
     next_id := next_id p; accepts := accepts p; sent := sent p ++ [x];
     logged := logged p |}.

(** The stickers of uploaded files, with file identifiers from [n] on. *)
Fixpoint uploaded (n : Z) (l : list InputSticker) : list Sticker :=
  match l with
  | [] => []
  | i :: l' =>
      {| st_file_id := lit "sticker" ++ str_of_int n;
         st_emoji := emoji_list i;
         st_content := content (sticker i) |} :: uploaded (n + 1) l'
  end.

Definition has_sticker (fid : str) (s : StickerSet) : bool :=
  bool_decide (fid ∈ st_file_id <$> stickers s).

Definition without_sticker (fid : str) (s : StickerSet) : StickerSet :=
  {| ss_name := ss_name s; ss_title := ss_title s; ss_owner := ss_owner s;
     ss_format := ss_format s;
     stickers := filter (fun x => st_file_id x ≠ fid) (stickers s) |}.

Definition with_stickers (s : StickerSet) (l : list Sticker) : StickerSet :=
  {| ss_name := ss_name s; ss_title := ss_title s; ss_owner := ss_owner s;
     ss_format := ss_format s; stickers := stickers s ++ l |}.

Definition tg_handle : handler (E := api) Platform :=
  fun X c =>
    match c in api X return Platform -> result X * Platform with
    | GetMe => fun p => (Ok (bot_account p), p)
    | SendChatAction chat action => fun p => (Ok tt, with_sent p (SentAction chat action))
    | ReplySticker fid => fun p => (Ok tt, with_sent p (SentSticker fid))
    | ReplyText text => fun p => (Ok tt, with_sent p (SentText text))
    | GetFile fid => fun p =>
        match stored p !! fid with
        | Some (path, _) => (Ok {| file_id := fid; file_path := path |}, p)
        | None => (Err (TelegramError (lit "Invalid file_id")), p)
        end
    | DownloadAsBytearray f => fun p =>
        match stored p !! file_id f with
        | Some (_, b) => (Ok b, p)
        | None => (Err (TelegramError (lit "Invalid file_id")), p)
        end
    | GetStickerSet name => fun p =>
        match registry p !! name with
        | Some s => (Ok s, p)
        | None => (Err (TelegramError (lit "Stickerset_invalid")), p)
        end
    | CreateNewStickerSet uid name title l fmt _ => fun p =>
        match registry p !! name with
        | Some _ =>
            (Err (TelegramError (lit "Sticker set name is already occupied")), p)
        | None =>
            if accepts p name then
              (Ok tt,
               with_registry p
                 (<[ name := {| ss_name := name; ss_title := title; ss_owner := uid;
                                ss_format := fmt;
                                stickers := uploaded (next_id p) l |} ]> (registry p))
                 (next_id p + Z.of_nat (length l)))
            else (Err (TelegramError (lit "Invalid sticker set name is specified")), p)
        end
    | DeleteStickerFromSet fid => fun p =>
        if bool_decide (map_Exists (fun _ s => has_sticker fid s = true) (registry p))
        then (Ok tt, with_registry p (without_sticker fid <$> registry p) (next_id p))
        else (Err (TelegramError (lit "Sticker not found")), p)
    | AddStickerToSet uid name i => fun p =>
        match registry p !! name with
        | Some s =>
            (Ok tt,
             with_registry p
               (<[ name := with_stickers s (uploaded (next_id p) [i]) ]> (registry p))
               (next_id p + 1))
        | None => (Err (TelegramError (lit "Stickerset_invalid")), p)
        end
    | Log line => fun p =>
        (Ok tt,
         {| bot_account := bot_account p; registry := registry p; stored := stored p;
            next_id := next_id p; accepts := accepts p; sent := sent p;
            logged := logged p ++ [line] |})
    end.

End Sets.
Export Sets.

(** ** The handler of a media message *)

Module Handler.

(** The calls of [handle_media]: those of the Bot API and those into the
    operating system. *)
Inductive io : Type -> Type :=
| InApi {X} (c : api X) : io X
| InOs {X} (c : os X) : io X.

Fixpoint lift {E F : Type -> Type} {A} (inj : forall X, E X -> F X)
  (t : Task E A) : Task F A :=
  match t with
  | Ret a => Ret a
  | Raise e => Raise e
  | Call c k => Call (inj _ c) (fun r => lift inj (k r))
  end.

Definition VIDEO_EXTS : list str :=
  [lit ".gif"; lit ".mp4"; lit ".mov"; lit ".mkv"; lit ".webm"; lit ".avi"].

Section WithRuntime.
Context `{Runtime} `{Pillow}.

(** [update.message.attr]: the message of the update, on which the
    attribute [attr] is then read; without a message this raises. *)
Definition the_message (update : Update) (attr : string) : Task io Message :=
  match message update with
  | Some msg => mret msg
  | None =>
      Raise (AttributeError
               (lit "'NoneType' object has no attribute '" ++ lit attr ++ lit "'"))
  end.

(** Lines 236-255: the [try] block of [handle_media]. *)
Definition handle_media_try (ff : str) (update : Update) : Task io unit :=
  lift (@InApi) (call (SendChatAction (effective_chat update) UPLOAD_DOCUMENT));;
  '(src_bytes, ext) ← lift (@InApi) (tg_download_to_bytes update);
  msg ← the_message update "caption";
  let emoji := caption_emoji (caption msg) in
  '(kind, sticker_bytes) ←
    (if bool_decide (lower ext ∈ VIDEO_EXTS)
        || bool_decide (is_Some (video_att msg))
        || bool_decide (is_Some (animation msg))
     then b ← lift (@InOs) (video_to_sticker_webm ff src_bytes); mret (video, b)
     else b ← of_result (image_to_sticker_webp src_bytes); mret (static, b));
  '(name, title) ← lift (@InApi) (get_or_create_set update kind);
  fid ← lift (@InApi) (add_to_set update name sticker_bytes kind emoji);
  lift (@InApi) (call (ReplySticker fid));;
  lift (@InApi) (call (ReplyText (Added title name))).

(** Lines 257-262: the block under [except Exception as e]. *)
Definition handle_media_except (update : Update) (e : exn) : Task io unit :=
  lift (@InApi)
    (call (Log (Exception (lit "Failed to process media: " ++ exn_str e))));;
  the_message update "reply_text";;
  lift (@InApi) (call (ReplyText (Failed (exn_str e)))).

Definition handle_media (ff : str) (update : Update) : Task io unit :=
  try_except (handle_media_try ff update) (handle_media_except update).

End WithRuntime.

(** The world of [handle_media]: a platform answering the calls of the Bot
    API as [platform] says, and the operating system. *)
Definition io_handle (platform : handler (E := api) Platform)
  (exec : list str -> FS -> result CompletedProcess * FS)
  : handler (E := io) (Platform * FS) :=
  fun X c =>
    match c in io X return Platform * FS -> result X * (Platform * FS) with
    | InApi c => fun w => let '(r, p) := platform _ c w.1 in (r, (p, w.2))
    | InOs c => fun w => let '(r, fs) := os_handle exec _ c w.2 in (r, (w.1, fs))
    end.

End Handler.
Export Handler.

(** ** The transcoder

    What the options of [ffmpeg_cmd] ask of ffmpeg, after ffmpeg's
    documentation of [-an], [-t] and the filters [scale] and [fps].  A clip
    is described by its frame size, its length in milliseconds, its frame
    rate in frames per 1000 seconds and whether it carries sound. *)

Module Ffmpeg.

Inductive expr :=
| Num (n : Z)
| Iw
| Ih
| Min (a b : expr).

Inductive aspect := disable | decrease | increase.

Inductive vfilter :=
| Scale (w h : expr) (force_original_aspect_ratio : aspect)
| Fps (n : Z).

Inductive option_ :=
| Overwrite
| Input (path : str)
| NoAudio
| Duration (seconds : Z)
| VideoFilters (chain : list vfilter)
| VideoCodec (name : str)
| VideoBitrate (rate : str)
| Crf (n : Z)
| Deadline (name : str)
| Output (path : str).

(** The text of an option list on the command line. *)
Fixpoint render_expr (e : expr) : str :=
  match e with
  | Num n => str_of_int n
  | Iw => lit "iw"
  | Ih => lit "ih"
  | Min a b => lit "min(" ++ render_expr a ++ lit "," ++ render_expr b ++ lit ")"
  end.

(** An expression with a comma is quoted inside a filter chain. *)
Definition render_arg (e : expr) : str :=
  match e with
  | Min _ _ => lit "'" ++ render_expr e ++ lit "'"
  | _ => render_expr e
  end.

Definition render_aspect (a : aspect) : str :=
  match a with
  | disable => lit "disable"
  | decrease => lit "decrease"
  | increase => lit "increase"
  end.

Definition render_filter (f : vfilter) : str :=
  match f with
  | Scale w h a =>
      lit "scale=" ++ render_arg w ++ lit ":" ++ render_arg h
      ++ lit ":force_original_aspect_ratio=" ++ render_aspect a
  | Fps n => lit "fps=" ++ str_of_int n
  end.

Fixpoint render_chain (l : list vfilter) : str :=
  match l with
  | [] => []
  | [f] => render_filter f
  | f :: l' => render_filter f ++ lit "," ++ render_chain l'
  end.

Definition render_option (o : option_) : list str :=
  match o with
  | Overwrite => [lit "-y"]
  | Input p => [lit "-i"; p]
  | NoAudio => [lit "-an"]
  | Duration s => [lit "-t"; str_of_int s]
  | VideoFilters l => [lit "-vf"; render_chain l]
  | VideoCodec c => [lit "-c:v"; c]
  | VideoBitrate r => [lit "-b:v"; r]
  | Crf n => [lit "-crf"; str_of_int n]
  | Deadline d => [lit "-deadline"; d]
  | Output p => [p]
  end.

Definition render (ff : str) (l : list option_) : list str :=
  ff :: (l ≫= render_option).

(** The options [video_to_sticker_webm] passes. *)
Definition sticker_options (in_path out_path : str) : list option_ :=
  [ Overwrite; Input in_path; NoAudio; Duration 3;
    VideoFilters [Scale (Min (Num 512) Iw) (Num (-2)) decrease; Fps 30];
    VideoCodec (lit "libvpx-vp9"); VideoBitrate (lit "420k"); Crf 32;
    Deadline (lit "realtime"); Output out_path ].

Record Clip := {
  width : Z;
  height : Z;
  millis : Z;
  rate : Z;
  audio : bool;
}.

Fixpoint eval (iw ih : Z) (e : expr) : Z :=
  match e with
  | Num n => n
  | Iw => iw
  | Ih => ih
  | Min a b => Z.min (eval iw ih a) (eval iw ih b)
  end.

(** [av_rescale a b c]: [a * b / c], rounded to the nearest integer. *)
Definition av_rescale (a b c : Z) : Z := (a * b + c / 2) / c.

(** The output size of [scale]: a negative size [-n] stands for the size
    that keeps the aspect ratio, rounded to a multiple of [n]; with
    [decrease] each side is then capped by the side that the other one
    gives under the aspect ratio of the input. *)
Definition scale_size (iw ih w h : Z) (a : aspect) : Z * Z :=
  let factor_w := if w <? -1 then - w else 1 in
  let factor_h := if h <? -1 then - h else 1 in
  let '(w, h) := if (w <? 0) && (h <? 0) then (iw, ih) else (w, h) in
  let w := if w <? 0 then av_rescale h iw (ih * factor_w) * factor_w else w in
  let h := if h <? 0 then av_rescale w ih (iw * factor_h) * factor_h else h in
  let tmp_w := av_rescale h iw ih in
  let tmp_h := av_rescale w ih iw in
  match a with
  | disable => (w, h)
  | decrease => (Z.min tmp_w w, Z.min tmp_h h)
  | increase => (Z.max tmp_w w, Z.max tmp_h h)
  end.

Definition apply_filter (f : vfilter) (c : Clip) : Clip :=
  match f with
  | Scale w h a =>
      let '(w', h') :=
        scale_size (width c) (height c)
          (eval (width c) (height c) w) (eval (width c) (height c) h) a in
      {| width := w'; height := h'; millis := millis c; rate := rate c;
         audio := audio c |}
  | Fps n =>
      {| width := width c; height := height c; millis := millis c;
         rate := 1000 * n; audio := audio c |}
  end.

Definition apply_option (o : option_) (c : Clip) : Clip :=
  match o with
  | NoAudio =>
      {| width := width c; height := height c; millis := millis c;
         rate := rate c; audio := false |}
  | Duration s =>
      {| width := width c; height := height c;
         millis := Z.min (millis c) (1000 * s); rate := rate c; audio := audio c |}
  | VideoFilters l => foldl (fun c f => apply_filter f c) c l
  | _ => c
  end.

(** The clip written for the input clip [c]. *)
Definition transcode (l : list option_) (c : Clip) : Clip :=
  foldl (fun c o => apply_option o c) c l.

Definition longer_side (c : Clip) : Z := Z.max (width c) (height c).

End Ffmpeg.

(** ** The rules of the specification, in its own words *)

Module Spec.

(** "replacing every character outside [A-Za-z0-9_] with _ and lower-casing;
    if the owner has no public handle, substitute user<ownerId>" *)
Definition sanitize (ownerHandle : str) (ownerId : Z) : str :=
  match ownerHandle with
  | [] => lit "user" ++ str_of_int ownerId
  | _ => (fun c => ascii_lower (if word_char c then c else 95%N)) <$> ownerHandle
  end.

Definition kind_suffix (kind : Kind) : str :=
  match kind with
  | static => lit "_static"
  | video => lit "_video"
  end.

(** "Append a kind-specific fixed suffix, then append _by_<botHandle>." *)
Definition resolve_name (ownerHandle : str) (ownerId : Z) (botHandle : str)
  (kind : Kind) : str :=
  sanitize ownerHandle ownerId ++ kind_suffix kind ++ lit "_by_" ++ botHandle.

(** "caption longer than 10 characters or empty caption yields the default
    tag; caption <= 10 characters is used verbatim" *)
Definition tag_rule (caption tag : str) : Prop :=
  (caption = [] ∨ (10 < length caption)%nat → tag = DEFAULT_EMOJI)
  ∧ (caption ≠ [] ∧ (length caption <= 10)%nat → tag = caption).

(** Neither end of a string is white space. *)
Definition trimmed (s : str) : Prop :=
  (∀ c, head s = Some c → isspace c = false)
  ∧ (∀ c, last s = Some c → isspace c = false).

(** "fails with the distinct error UnsupportedMediaError (an
    unrecognized-payload-kind error distinguishable from the other error
    kinds of the taxonomy)": the exception for a message without media is of
    another class than the exception of another kind of failure. *)
Definition distinct_error (unsupported other : exn) : Prop :=
  exn_class unsupported ≠ exn_class other.

End Spec.

(** ** Fixtures for the examples *)

Module Fixtures.

(** [PurePosixPath.name]: the last component of the path, where empty
    components and components that are a single dot do not count. *)
Definition counts (component : str) : bool :=
  match component with
  | [] => false
  | [c] => negb (c =? 46)%N
  | _ => true
  end.

Fixpoint name_aux (best cur s : str) : str :=
  match s with
  | [] => if counts cur then cur else best
  | c :: s' =>
      if (c =? 47)%N then name_aux (if counts cur then cur else best) [] s'
      else name_aux best (cur ++ [c]) s'
  end.

Fixpoint suffix_aux (name : str) (i : nat) (best : option nat) : option nat :=
  match name with
  | [] => best
  | c :: name' => suffix_aux name' (S i) (if (c =? 46)%N then Some i else best)
  end.

(** [PurePosixPath.suffix]: the part of the name from its last dot on,
    unless that dot starts or ends the name. *)
Definition posix_suffix (p : str) : str :=
  let name := name_aux [] [] p in
  match suffix_aux name 0 None with
  | Some i => if (0 <? i)%nat && (i <? length name - 1)%nat then drop i name else []
  | None => []
  end.

(** A runtime in which every string met is ASCII. *)
Definition ascii_runtime : Runtime := {|
  unicode_lower := fun s => s;
  path_suffix := posix_suffix;
  decode_ignore := fun b => (fun x => N.of_nat (Byte.to_nat x)) <$> b;
|}.

(** A decoder that reads the size from the first two bytes, in units of
    four pixels, and an encoder that writes it back the same way. *)
Definition header_pillow : Pillow := {|
  image_open := fun b =>
    match b with
    | w :: h :: _ =>
        Ok {| im_mode := OtherMode (lit "RGB");
              im_size := (4 * Z.of_nat (Byte.to_nat w), 4 * Z.of_nat (Byte.to_nat h)) |}
    | _ => Err (UnidentifiedImageError (lit "cannot identify image file"))
    end;
  webp_save := fun im _ _ =>
    match Byte.of_nat (Z.to_nat (im_size im).1 / 4), Byte.of_nat (Z.to_nat (im_size im).2 / 4) with
    | Some w, Some h => [w; h]
    | _, _ => []
    end;
|}.

Definition alice : User :=
  {| user_id := 42; username := Some (lit "My.Bot!"); first_name := lit "Alice" |}.

Definition stickbot : User :=
  {| user_id := 7; username := Some (lit "StickBot"); first_name := lit "Stick" |}.

Definition empty_message : Message :=
  {| photo := []; animation := None; video_att := None; document := None;
     caption := None |}.

Definition update_of (msg : Message) : Update :=
  {| message := Some msg; effective_user := alice; effective_chat := 42 |}.

(** A platform with no sticker sets that admits every name. *)
Definition fresh_platform : Platform :=
  {| bot_account := stickbot; registry := ∅; stored := ∅; next_id := 1;
     accepts := fun _ => true; sent := []; logged := [] |}.

(** A photo of 784x588 pixels with the caption " a ", stored on the
    platform under the identifier "f1". *)
Definition photo_message : Message :=
  {| photo := [lit "f1"]; animation := None; video_att := None; document := None;
     caption := Some (lit " a ") |}.

Definition platform_with_photo : Platform :=
  {| bot_account := stickbot; registry := ∅;
     stored := {[ lit "f1" := (lit "photos/f1.jpg", [Byte.xc4; Byte.x93]) ]};
     next_id := 1; accepts := fun _ => true; sent := []; logged := [] |}.

(** The same platform after the static set of the user was made. *)
Definition platform_with_static_set : Platform :=
  {| bot_account := stickbot;
     registry :=
       {[ lit "my_bot__static_by_StickBot" :=
            {| ss_name := lit "my_bot__static_by_StickBot";
               ss_title := lit "Alice's Static Stickers"; ss_owner := 42;
               ss_format := STATIC; stickers := [] |} ]};
     stored := {[ lit "f1" := (lit "photos/f1.jpg", [Byte.xc4; Byte.x93]) ]};
     next_id := 1; accepts := fun _ => true; sent := []; logged := [] |}.

(** An animation, stored on the platform under the identifier "f2". *)
Definition animation_message : Message :=
  {| photo := []; animation := Some (lit "f2"); video_att := None;
     document := None; caption := None |}.

Definition platform_with_animation : Platform :=
  {| bot_account := stickbot; registry := ∅;
     stored := {[ lit "f2" := (lit "animations/f2.mp4", [Byte.x47]) ]};
     next_id := 1; accepts := fun _ => true; sent := []; logged := [] |}.

(** A platform that admits no name. *)
Definition strict_platform : Platform :=
  {| bot_account := stickbot; registry := ∅; stored := ∅; next_id := 1;
     accepts := fun _ => false; sent := []; logged := [] |}.

(** The platform as the loser of a race sees it: right after a look-up
    that missed the set, a rival coroutine for the same owner creates it. *)
Definition rival_creates (name : str) (p : Platform) : Platform :=
  with_registry p
    (<[ name := {| ss_name := name; ss_title := []; ss_owner := 42;
                   ss_format := VIDEO; stickers := [] |} ]> (registry p))
    (next_id p).

Definition raced_handle : handler (E := api) Platform :=
  fun X c p =>
    match c in api X return result X * Platform -> result X * Platform with
    | GetStickerSet name => fun rp =>
        match rp.1 with
        | Err _ => (rp.1, rival_creates name rp.2)
        | Ok _ => rp
        end
    | _ => fun rp => rp
    end (tg_handle X c p).

(** A platform whose look-up is out of order: it raises whether the set
    exists or not. *)
Definition outage_handle : handler (E := api) Platform :=
  fun X c p =>
    match c in api X return result X * Platform -> result X * Platform with
    | GetStickerSet _ => fun rp => (Err (TelegramError (lit "Timed out")), rp.2)
    | _ => fun rp => rp
    end (tg_handle X c p).

Definition empty_fs (found : option str) : FS :=
  {| files := ∅; dirs := ∅; on_path := fun _ => found; tmp_count := 0 |}.

(** A transcoder that fails without writing anything. *)
Definition failing_exec (cmd : list str) (fs : FS) : result CompletedProcess * FS :=
  (Ok {| returncode := 1; stderr := [] |}, fs).

(** A transcoder that writes its output file, the last argument. *)
Definition working_exec (cmd : list str) (fs : FS) : result CompletedProcess * FS :=
  (Ok {| returncode := 0; stderr := [] |},
   {| files := <[ default [] (last cmd) := [Byte.x1a; Byte.x45] ]> (files fs);
      dirs := dirs fs; on_path := on_path fs; tmp_count := tmp_count fs |}).

(** A portrait clip: 720x1280, ten seconds at 60 frames per second, with
    sound. *)
Definition portrait : Ffmpeg.Clip :=
  {| Ffmpeg.width := 720; Ffmpeg.height := 1280; Ffmpeg.millis := 10000;
     Ffmpeg.rate := 60000; Ffmpeg.audio := true |}.

End Fixtures.

(** ** Observations on runs *)

Module Observe.

(** For a longer side [m] the scale [512.0 / m] is not below 1. *)
Definition keeps_size (m : Z) : bool :=
  match float_div_int 512%float m with
  | Ok scale => negb (PrimFloat.ltb scale 1%float)
  | Err _ => false
  end.

(** The call asks the platform to create a sticker set. *)
Definition is_create (ev : event api) : bool :=
  match ev_call ev with
  | CreateNewStickerSet _ _ _ _ _ _ => true
  | _ => false
  end.

Definition succeeded {E} (ev : event E) : bool :=
  match ev_result ev with Ok _ => true | Err _ => false end.


(** The number of create calls in a trace, and of those that succeeded. *)
Definition create_calls (tr : list (event api)) : nat :=
  length (filter (fun ev => is_create ev = true) tr).

Definition creations (tr : list (event api)) : nat :=
  length (filter (fun ev => is_create ev = true ∧ succeeded ev = true) tr).

(** [Mkdtemp] returned [td] in this event. *)
Definition made_tempdir (td : str) (ev : event os) : Prop :=
  match ev with
  | Ev Mkdtemp (Ok d) => d = td
  | _ => False
  end.

(** A message without photo, animation, video and document. *)
Definition no_media (msg : Message) : Prop :=
  photo msg = [] ∧ animation msg = None ∧ video_att msg = None
  ∧ document msg = None.

(** The operating system removes a directory tree when asked to. *)
Definition removes_trees (h : handler (E := os) FS) : Prop :=
  ∀ dir fs, h _ (Rmtree dir) fs = (Ok tt, rmtree dir fs).

(** Nothing of the directory [td] is left in the file system. *)
Definition released (td : str) (fs : FS) : Prop :=
  (td ∉ dirs fs) ∧ (∀ p, inside td p → files fs !! p = None ∧ (p ∉ dirs fs)).

End Observe.
Export Observe.

(** ** Two callers of [get_or_create_set] on one event loop *)

Module Race.
Section WithRuntime.
Context `{Runtime} `{Pillow}.
Context (update : Update) (bot : User).

Definition race_name : str :=
  set_name (effective_user update) (format_opt (username bot)) video.

Definition race_title : str := set_title (effective_user update) video.

(** [get_or_create_set] after [get_me] has returned [bot]. *)
Definition after_get_me : Task api (str * str) :=
  lookup_set race_name ≫= fun found : bool =>
  if found then mret (race_name, race_title)
  else create_set (effective_user update) video race_name race_title.

(** What is left of a call returns the name and the title, whatever the
    platform answers to the calls that are left. *)
Fixpoint returns_name (t : Task api (str * str)) : Prop :=
  match t with
  | Ret a => a = (race_name, race_title)
  | Raise _ => False
  | Call c k => ∀ p, returns_name (k (tg_handle _ c p).1)
  end.

Definition occupied : exn :=
  TelegramError (lit "Sticker set name is already occupied").

(** A caller that has not yet reached the platform with a create call. *)
Definition before_create (t : Task api (str * str)) : Prop :=
  t = get_or_create_set update video
  ∨ t = after_get_me
  ∨ t = create_set (effective_user update) video race_name race_title.

Definition on_the_way (t : Task api (str * str)) : Prop :=
  before_create t ∨ returns_name t ∨ t = Raise occupied.

(** What holds of the two callers and the platform at every moment: as
    long as the set does not exist neither caller has created it; once it
    exists, one of the callers is bound to return its name. *)
Definition race_invariant (t1 t2 : Task api (str * str)) (p : Platform) : Prop :=
  bot_account p = bot
  ∧ accepts p race_name = true
  ∧ ((registry p !! race_name = None ∧ before_create t1 ∧ before_create t2)
     ∨ (is_Some (registry p !! race_name)
        ∧ on_the_way t1 ∧ on_the_way t2
        ∧ (returns_name t1 ∨ returns_name t2))).

(** How a race ends: one caller at least has the name, the other has the
    name or the refusal of its create call, and the set exists. *)
Definition race_outcome (out : result (str * str) * result (str * str) * Platform)
  : Prop :=
  let '(r1, r2, p) := out in
  (r1 = Ok (race_name, race_title) ∨ r2 = Ok (race_name, race_title))
  ∧ (r1 = Ok (race_name, race_title) ∨ r1 = Err occupied)
  ∧ (r2 = Ok (race_name, race_title) ∨ r2 = Err occupied)
  ∧ is_Some (registry p !! race_name).

End WithRuntime.
End Race.
Export Race.

(** ** Conditions on platforms and further observations *)

Module Conditions.

(** A lower-case letter, a digit or the underscore. *)
Definition slug_char (c : N) : bool :=
  in_range 97 122 c || in_range 48 57 c || (c =? 95)%N.

(** Whatever a call raises is an [Exception]. *)
Definition raises_Exceptions_only {E : Type -> Type} {W : Type}
  (h : handler (E := E) W) : Prop :=
  ∀ X (c : E X) w e w', h X c w = (Err e, w') → is_Exception e = true.

(** Writing a log line returns. *)
Definition logs {W : Type} (h : handler (E := api) W) : Prop :=
  ∀ line w, ∃ w', h _ (Log line) w = (Ok tt, w').

(** In the world of [handle_media]: writing a log line and sending a text
    return. *)
Definition logs_and_replies {W : Type} (h : handler (E := io) W) : Prop :=
  (∀ line w, ∃ w', h _ (InApi (Log line)) w = (Ok tt, w'))
  ∧ (∀ text w, ∃ w', h _ (InApi (ReplyText text)) w = (Ok tt, w')).

(** The event is a call into the operating system. *)
Definition is_os_call (ev : event io) : Prop :=
  match ev_call ev with
  | InOs _ => True
  | InApi _ => False
  end.

(** The file system right after [video_to_sticker_webm] has made its
    directory and written its input file, when started in [fs]. *)
Definition staged (fs : FS) (src_bytes : bytes) : FS :=
  {| files := <[ path_join (tmp_name fs) (lit "in.bin") := src_bytes ]> (files fs);
     dirs := {[ tmp_name fs ]} ∪ dirs fs;
     on_path := on_path fs;
     tmp_count := tmp_count fs + 1 |}.

(** Two file systems hold the same files and directories outside [td]. *)
Definition same_outside (td : str) (fs1 fs2 : FS) : Prop :=
  (∀ p, ¬ inside td p → files fs1 !! p = files fs2 !! p)
  ∧ (∀ d, d ≠ td → ¬ inside td d → d ∈ dirs fs1 ↔ d ∈ dirs fs2).

(** The side of the sticker that comes from the longer side [m] of the
    image is 511 or 512 pixels. *)
Definition longer_side_fits (m : Z) : bool :=
  match float_div_int 512%float m with
  | Ok scale =>
      PrimFloat.ltb scale 1%float
      && match int_mul_float m scale ≫= int_of_float with
         | Ok r => (r =? 511) || (r =? 512)
         | Err _ => false
         end
  | Err _ => false
  end.

(** A run that returned ended with an event of which [P] holds. *)
Definition ends_with {W A : Type} (P : event io → Prop)
  (out : result A * W * list (event io)) : Prop :=
  ∀ a, out.1.1 = Ok a → ∃ ev, last out.2 = Some ev ∧ P ev.

(** The event is the success notice of [handle_media], sent to the user:
    the text made of the title and the name of a set of the user, as
    [get_or_create_set] makes them for some kind and some name of the bot. *)
Definition is_success_notice `{Runtime} (update : Update) (ev : event io) : Prop :=
  let user := effective_user update in
  ∃ kind bot,
    ev = Ev (InApi (ReplyText (Added (set_title user kind)
                                 (set_name user (format_opt (username bot)) kind))))
            (Ok tt).

(** The two events of the [except] block of [handle_media] for the
    exception [e]: the log line and the failure notice. *)
Definition failure_events (e : exn) : list (event io) :=
  [Ev (InApi (Log (Exception (lit "Failed to process media: " ++ exn_str e)))) (Ok tt);
   Ev (InApi (ReplyText (Failed (exn_str e)))) (Ok tt)].

(** An event of the Bot API as an event of [handle_media]. *)
Definition api_event (ev : event api) : event io :=
  match ev with Ev c r => Ev (InApi c) r end.

Definition os_event (ev : event os) : event io :=
  match ev with Ev c r => Ev (InOs c) r end.

End Conditions.
Export Conditions.

(** * Properties *)

Import Fixtures.

(** ** Strings *)

Section StringFacts.

Lemma in_range_spec lo hi c : in_range lo hi c = true ↔ (lo <= c <= hi)%N.
Proof. unfold in_range. rewrite andb_true_iff, !N.leb_le. tauto. Qed.

Lemma word_char_ascii c : word_char c = true → is_ascii c = true.
Proof.
  unfold word_char, is_ascii.
  rewrite !orb_true_iff, !in_range_spec, N.eqb_eq, N.ltb_lt. lia.
Qed.

(** Replacing by a single code point keeps the length: it is a map. *)
Lemma re_sub_class_single p r s :
  re_sub_class p [r] s = (fun c => if p c then r else c) <$> s.
Proof.
  unfold re_sub_class.
  induction s as [|c s IH]; [done|].
  cbn [mbind list_bind fmap list_fmap]. rewrite <- IH.
  by destruct (p c).
Qed.

Lemma lstrip_suffix s : lstrip s `suffix_of` s.
Proof.
  induction s as [|c s IH]; cbn; [done|].
  destruct (isspace c); [by apply suffix_cons_r | done].
Qed.

Lemma lstrip_head s c : head (lstrip s) = Some c → isspace c = false.
Proof.
  induction s as [|x s IH]; cbn; [done|].
  destruct (isspace x) eqn:E; [done|]. cbn. congruence.
Qed.

Lemma lstrip_all_space s : forallb isspace s = true → lstrip s = [].
Proof.
  induction s as [|x s IH]; cbn; [done|].
  rewrite andb_true_iff. intros [-> ?]. auto.
Qed.

Lemma lstrip_id s : (∀ c, head s = Some c → isspace c = false) → lstrip s = s.
Proof.
  destruct s as [|x s]; cbn; [done|].
  intros Hx. by rewrite (Hx x).
Qed.

Lemma rstrip_prefix s : rstrip s `prefix_of` s.
Proof.
  unfold rstrip. rewrite <- (reverse_involutive s) at 2.
  apply suffix_prefix_reverse, lstrip_suffix.
Qed.

Lemma rstrip_last s c : last (rstrip s) = Some c → isspace c = false.
Proof.
  unfold rstrip. rewrite last_reverse. apply lstrip_head.
Qed.

Lemma prefix_head {A} (l k : list A) x :
  l `prefix_of` k → head l = Some x → head k = Some x.
Proof. intros [t ->]. by destruct l. Qed.

Lemma strip_trimmed s : Spec.trimmed (strip s).
Proof.
  split; intros c Hc.
  - apply (lstrip_head s). eapply prefix_head; [apply rstrip_prefix | exact Hc].
  - by apply (rstrip_last (lstrip s)).
Qed.

Lemma strip_all_space s : forallb isspace s = true → strip s = [].
Proof. intros Hs. unfold strip. by rewrite (lstrip_all_space s Hs). Qed.

Lemma strip_id s : Spec.trimmed s → strip s = s.
Proof.
  intros [Hh Hl]. unfold strip, rstrip.
  rewrite (lstrip_id s Hh), lstrip_id; [apply reverse_involutive|].
  intros c. rewrite head_reverse. apply Hl.
Qed.

End StringFacts.

Section NameFacts.
Context `{Runtime}.

Lemma sanitize_username_spec (handle : str) (uid : Z) :
  sanitize_username handle uid = Spec.sanitize handle uid.
Proof.
  unfold sanitize_username, Spec.sanitize.
  destruct handle as [|c handle]; [done|].
  cbn [truthy negb].
  change (lit "_") with [95%N].
  rewrite re_sub_class_single. unfold lower.
  assert (Hascii : forallb is_ascii
            ((fun c0 => if negb (word_char c0) then 95%N else c0) <$> (c :: handle)) = true).
  { apply forallb_forall. intros x Hx.
    apply list_elem_of_In, list_elem_of_fmap in Hx as (y & -> & _).
    destruct (word_char y) eqn:E; [by apply word_char_ascii | done]. }
  rewrite Hascii, <- list_fmap_compose.
  apply list_fmap_ext. intros _ x _. cbn.
  by destruct (word_char x).
Qed.

End NameFacts.

(** C5.  For every owner, bot handle and kind, the name of the sticker set
    is the sanitized owner token (every code point outside [A-Za-z0-9_]
    replaced by an underscore, then lower-cased; user<id> when the owner has
    no handle), then the suffix of the kind, then _by_ and the bot handle.
    For the handle My.Bot! of owner 42 the token is my_bot_, and the static
    set of StickBot is named my_bot__static_by_StickBot. *)
Theorem C5_set_name `{Runtime} (user : User) (botHandle : str) (kind : Kind) :
  set_name user botHandle kind
    = Spec.resolve_name (default [] (username user)) (user_id user) botHandle kind
  ∧ sanitize_username (lit "My.Bot!") 42 = lit "my_bot_"
  ∧ set_name {| user_id := 42; username := Some (lit "My.Bot!"); first_name := [] |}
      (lit "StickBot") static = lit "my_bot__static_by_StickBot".
Proof.
  assert (Hname : ∀ u b k,
    set_name u b k = Spec.resolve_name (default [] (username u)) (user_id u) b k).
  { intros u b k. unfold set_name, Spec.resolve_name.
    rewrite sanitize_username_spec.
    replace (or_else (username u) []) with (default [] (username u))
      by (by destruct (username u) as [[|??]|]).
    by destruct k. }
  split; [apply Hname|]. split.
  - by rewrite sanitize_username_spec.
  - by rewrite Hname.
Qed.

(** ** The tag of a sticker *)

Section TagFacts.

Lemma caption_emoji_cases (caption : option str) :
  let c := strip (or_else caption []) in
  caption_emoji caption
    = if decide (c ≠ [] ∧ (length c <= 10)%nat) then c else DEFAULT_EMOJI.
Proof.
  cbn zeta. unfold caption_emoji.
  destruct (strip (or_else caption [])) as [|x c]; cbn [truthy andb].
  - by rewrite decide_False by (intros [? _]; done).
  - destruct (Nat.leb_spec (length (x :: c)) 10).
    + by rewrite decide_True.
    + rewrite decide_False; [done|]. intros [_ ?]. lia.
Qed.

Lemma caption_emoji_truthy caption : truthy (caption_emoji caption) = true.
Proof.
  unfold caption_emoji.
  destruct (strip (or_else caption [])) as [|x c]; cbn [truthy andb]; [done|].
  by destruct (length (x :: c) <=? 10)%nat.
Qed.

(** The fallback in [add_to_set] never applies to what [handle_media]
    passes. *)
Lemma sticker_tag_caption_emoji caption : sticker_tag caption = caption_emoji caption.
Proof.
  unfold sticker_tag, bound_emoji, or_else.
  by rewrite caption_emoji_truthy.
Qed.

Lemma or_else_nil (caption : option str) : or_else caption [] = default [] caption.
Proof. by destruct caption as [[|??]|]. Qed.

Lemma DEFAULT_EMOJI_trimmed : Spec.trimmed DEFAULT_EMOJI.
Proof. split; intros c [= <-]; reflexivity. Qed.

End TagFacts.

(** C8, the rule as the specification words it, fails on a padded caption:
    " a " is not empty and has three code points, and the tag is "a". *)
Lemma C8_padded_caption_not_verbatim :
  ¬ Spec.tag_rule (lit " a ") (sticker_tag (Some (lit " a "))).
Proof.
  intros [_ Hverbatim].
  assert (Hc : lit " a " ≠ [] ∧ (length (lit " a ") <= 10)%nat)
    by (split; [discriminate | cbn; lia]).
  specialize (Hverbatim Hc). vm_compute in Hverbatim. discriminate.
Qed.

(** C8, amended.  For every message the tag follows the rule of the
    specification on the caption stripped of the white space at its ends:
    the default tag when the stripped caption is empty or longer than 10
    code points, the stripped caption itself otherwise.  A caption that has
    no white space at its ends is its own stripped caption, so for it the
    rule holds as worded. *)
Theorem C8_tag_of_stripped_caption (caption : option str) :
  let c := default [] caption in
  Spec.tag_rule (strip c) (sticker_tag caption)
  ∧ (Spec.trimmed c → Spec.tag_rule c (sticker_tag caption)).
Proof.
  cbn zeta.
  assert (Hrule : Spec.tag_rule (strip (default [] caption)) (sticker_tag caption)).
  { rewrite sticker_tag_caption_emoji, caption_emoji_cases, or_else_nil. cbn zeta.
    split.
    - intros Hbad. rewrite decide_False; [done|].
      intros [? ?]. destruct Hbad; [done | lia].
    - intros Hgood. by rewrite decide_True. }
  split; [exact Hrule|].
  intros Htrim. by rewrite (strip_id _ Htrim) in Hrule.
Qed.

(** C10.  The caption is stripped before the rule is applied: a caption of
    white space only gets the default tag; whether the caption itself or
    the default is used is decided by the length of the stripped caption;
    the tag never starts or ends with white space; and a caption that has
    white space at an end is therefore never the tag. *)
Theorem C10_caption_is_stripped (caption : option str) :
  let c := default [] caption in
  (forallb isspace c = true → sticker_tag caption = DEFAULT_EMOJI)
  ∧ sticker_tag caption
      = (if decide (strip c ≠ [] ∧ (length (strip c) <= 10)%nat)
         then strip c else DEFAULT_EMOJI)
  ∧ Spec.trimmed (sticker_tag caption)
  ∧ (strip c ≠ c → sticker_tag caption ≠ c).
Proof.
  cbn zeta.
  assert (Htag : sticker_tag caption
      = (if decide (strip (default [] caption) ≠ []
                    ∧ (length (strip (default [] caption)) <= 10)%nat)
         then strip (default [] caption) else DEFAULT_EMOJI)).
  { by rewrite sticker_tag_caption_emoji, caption_emoji_cases, or_else_nil. }
  assert (Htrim : Spec.trimmed (sticker_tag caption)).
  { rewrite Htag. case_decide; [apply strip_trimmed | apply DEFAULT_EMOJI_trimmed]. }
  repeat split.
  - intros Hspace. rewrite Htag, (strip_all_space _ Hspace).
    by rewrite decide_False by (intros [? _]; done).
  - exact Htag.
  - apply Htrim.
  - apply Htrim.
  - intros Hpadded Heq. apply Hpadded, strip_id. by rewrite <- Heq.
Qed.

(** The tag reaches the platform as computed: after [handle_media] on a
    photo with the caption " a ", the one sticker of the static set of the
    user carries the tag "a". *)
Example tag_on_the_platform :
  (fun p : Platform =>
     (fun s : StickerSet => st_emoji <$> stickers s)
       <$> registry p !! lit "my_bot__static_by_StickBot")
    (run (io_handle tg_handle failing_exec)
       (@handle_media ascii_runtime header_pillow (lit "ffmpeg")
          (update_of photo_message))
       (platform_with_static_set, empty_fs None)).1.2.1
  = Some [[lit "a"]].
Proof. vm_compute. reflexivity. Qed.

(** A caption of eleven code points, two of them padding, is used without
    the padding. *)
Example padded_caption_within_limit :
  sticker_tag (Some (lit " abcdefghi ")) = lit "abcdefghi".
Proof. reflexivity. Qed.

(** ** Static stickers *)

Section StaticFacts.

Lemma keeps_size_upto_512 m : 1 <= m <= 512 → keeps_size m = true.
Proof.
  intros Hm.
  assert (Hall : forallb keeps_size (seqZ 1 512) = true) by (vm_compute; reflexivity).
  rewrite forallb_forall in Hall. apply Hall.
  apply list_elem_of_In, elem_of_seqZ. lia.
Qed.

(** No upscaling: an image whose longer side is at most 512 pixels keeps
    its size. *)
Lemma fit_512_small (im : Image) :
  1 <= Z.max (im_size im).1 (im_size im).2 <= 512 → fit_512 im = Ok im.
Proof.
  intros Hm. apply keeps_size_upto_512 in Hm.
  unfold fit_512, keeps_size in *. destruct (im_size im) as [w h]. cbn [fst snd] in Hm.
  destruct (float_div_int 512 (Z.max w h)) as [scale|e]; [|done].
  cbn. by destruct (PrimFloat.ltb scale 1).
Qed.

Lemma image_to_sticker_webp_small `{Pillow} (src : bytes) (im : Image) :
  image_open src = Ok im →
  1 <= Z.max (im_size im).1 (im_size im).2 <= 512 →
  image_to_sticker_webp src = Ok (webp_save (convert RGBA im) 6 95).
Proof.
  intros Hopen Hm. unfold image_to_sticker_webp. rewrite Hopen. cbn.
  by rewrite (fit_512_small (convert RGBA im)) by done.
Qed.

(** The scenario of the specification: 1024x768 becomes 512x384. *)
Example fit_512_1024x768 (m : Mode) :
  fit_512 {| im_mode := m; im_size := (1024, 768) |}
    = Ok {| im_mode := m; im_size := (512, 384) |}.
Proof. reflexivity. Qed.

End StaticFacts.

(** C1, at an image of 784x588 pixels.  The scale [512.0 / 784] is
    rounded down to the binary64 number below 32/49, the products
    [784 * scale] and [588 * scale] fall just short of 512 and 384, and
    [int] cuts them to 511 and 383: the longer side of the sticker is 511,
    not 512. *)
Theorem C1_longer_side_511 `{Pillow} (src : bytes) (m : Mode) :
  image_open src = Ok {| im_mode := m; im_size := (784, 588) |} →
  image_to_sticker_webp src
    = Ok (webp_save {| im_mode := RGBA; im_size := (511, 383) |} 6 95).
Proof.
  intros Hopen. unfold image_to_sticker_webp. rewrite Hopen. reflexivity.
Qed.

(** C1 at a file that the example decoder reads as 784x588. *)
Lemma C1_longer_side_511_witness :
  @image_open header_pillow [Byte.xc4; Byte.x93]
    = Ok {| im_mode := OtherMode (lit "RGB"); im_size := (784, 588) |}
  ∧ @image_to_sticker_webp header_pillow [Byte.xc4; Byte.x93]
    = Ok (@webp_save header_pillow {| im_mode := RGBA; im_size := (511, 383) |} 6 95).
Proof.
  split; [reflexivity|].
  apply (@C1_longer_side_511 header_pillow [Byte.xc4; Byte.x93] (OtherMode (lit "RGB"))).
  reflexivity.
Defined.

(** ** Running programs *)

Section RunFacts.
Context {E : Type → Type} {W : Type} (h : handler (E := E) W).

Lemma run_bind {A B} (t : Task E A) (f : A → Task E B) (w : W) :
  run h (t ≫= f) w
  = let '(r, w1, tr1) := run h t w in
    match r with
    | Ok a => let '(r2, w2, tr2) := run h (f a) w1 in (r2, w2, tr1 ++ tr2)
    | Err e => (Err e, w1, tr1)
    end.
Proof.
  unfold mbind, Task_bind. revert w.
  induction t as [a|e|X c k IH]; intros w; cbn.
  - by destruct (run h (f a) w) as [[??]?].
  - done.
  - destruct (h X c w) as [r w']. rewrite IH.
    destruct (run h (k r) w') as [[[a|e] w1] tr1]; [|done].
    by destruct (run h (f a) w1) as [[??]?].
Qed.

(** The clean-up of [finally] runs last, whatever the body did. *)
Lemma run_finally {A} (t : Task E A) (c : Task E unit) (w : W) :
  run h (finally t c) w
  = let '(r, w1, tr1) := run h t w in
    let '(rc, w2, tr2) := run h c w1 in
    (match rc with Ok _ => r | Err e => Err e end, w2, tr1 ++ tr2).
Proof.
  revert w. induction t as [a|e|X x k IH]; intros w; cbn.
  - pose proof (run_bind c (fun _ => Ret a) w) as Hb.
    unfold mbind, Task_bind in Hb. rewrite Hb.
    destruct (run h c w) as [[[[]|e] w1] tr1]; cbn; [|done].
    by rewrite app_nil_r.
  - pose proof (run_bind c (fun _ => Raise e : Task E A) w) as Hb.
    unfold mbind, Task_bind in Hb. rewrite Hb.
    destruct (run h c w) as [[[[]|e'] w1] tr1]; cbn; [|done].
    by rewrite app_nil_r.
  - destruct (h X x w) as [r w']. rewrite IH.
    destruct (run h (k r) w') as [[r1 w1] tr1].
    by destruct (run h c w1) as [[rc w2] tr2].
Qed.

Lemma run_call {X} (c : E X) (w : W) :
  run h (call c) w = let '(r, w') := h X c w in (r, w', [Ev c r]).
Proof. cbn. destruct (h X c w) as [[x|e] w']; done. Qed.

End RunFacts.

(** ** Provisioning a sticker set *)

#[local] Arguments lit : simpl never.
#[local] Arguments set_name : simpl never.
#[local] Arguments set_title : simpl never.
#[local] Arguments placeholder_sticker : simpl never.
#[local] Arguments create_set : simpl never.

Section ProvisionFacts.
Context `{Runtime} `{Pillow}.
Context {W : Type} (h : handler (E := api) W).

Lemma create_set_video user name title :
  create_set user video name title
  = (call (CreateNewStickerSet (user_id user) name title [placeholder_sticker]
             VIDEO REGULAR);;
     remove_placeholder name;;
     mret (name, title)).
Proof. reflexivity. Qed.

Lemma create_set_static user name title :
  create_set user static name title = Raise (AttributeError (lit "WEBP")).
Proof. reflexivity. Qed.

(** The creation path of a video set starts with the create call; that of
    a static set raises at the look-up of the format, before any call. *)
Lemma create_set_begins user kind name title :
  match kind with
  | video =>
      ∃ k, create_set user video name title
           = Call (CreateNewStickerSet (user_id user) name title
                     [placeholder_sticker] VIDEO REGULAR) k
  | static =>
      create_set user static name title = Raise (AttributeError (lit "WEBP"))
  end.
Proof.
  destruct kind; [apply create_set_static|].
  rewrite create_set_video. cbn. eauto.
Qed.

(** On any platform: when the lookup raises, the run goes on as the
    creation path. *)
Lemma run_lookup_failed update kind w w1 w2 bot e :
  let user := effective_user update in
  let name := set_name user (format_opt (username bot)) kind in
  h _ GetMe w = (Ok bot, w1) →
  h _ (GetStickerSet name) w1 = (Err e, w2) →
  is_Exception e = true →
  run h (get_or_create_set update kind) w
  = let '(r, w3, tr) := run h (create_set user kind name (set_title user kind)) w2 in
    (r, w3, Ev GetMe (Ok bot) :: Ev (GetStickerSet name) (Err e) :: tr).
Proof.
  cbn zeta. intros Hme Hget He.
  unfold get_or_create_set, lookup_set. cbn. rewrite Hme. cbn. rewrite Hget.
  cbn. rewrite He. cbn.
  by destruct (run h (create_set _ _ _ _) w2) as [[??]?].
Qed.


End ProvisionFacts.

Section RegistryFacts.
Context `{Runtime} `{Pillow}.





End RegistryFacts.

Section CountFacts.






End CountFacts.


(** The first call for a video set on a platform without sets does
    return, after one create call. *)
Example first_call_creates :
  let t := @get_or_create_set ascii_runtime header_pillow
             (update_of empty_message) video in
  (run tg_handle t fresh_platform).1.1
    = Ok (lit "my_bot__video_by_StickBot", lit "Alice's Video Stickers")
  ∧ create_calls (run tg_handle t fresh_platform).2 = 1%nat.
Proof. vm_compute. done. Qed.

(** The first call for a static set on a platform without sets raises at
    the look-up of the format; no create call is made. *)
Example static_set_is_never_made :
  let t := @get_or_create_set ascii_runtime header_pillow
             (update_of empty_message) static in
  (run tg_handle t fresh_platform).1
    = (Err (AttributeError (lit "WEBP")), fresh_platform)
  ∧ create_calls (run tg_handle t fresh_platform).2 = 0%nat.
Proof. vm_compute. done. Qed.

(** On a platform that refuses the name both calls raise, each after a
    create call that failed. *)
Example refused_name_is_never_created :
  let t := @get_or_create_set ascii_runtime header_pillow
             (update_of empty_message) video in
  let out1 := run tg_handle t strict_platform in
  let out2 := run tg_handle t out1.1.2 in
  out1.1.1 = Err (TelegramError (lit "Invalid sticker set name is specified"))
  ∧ out2.1.1 = out1.1.1
  ∧ create_calls (out1.2 ++ out2.2) = 2%nat
  ∧ creations (out1.2 ++ out2.2) = 0%nat.
Proof. vm_compute. done. Qed.

(** The premise of C3 is a look-up that finds what exists.  When the
    look-up is out of order, the first call still creates the set, and the
    second makes a second create call, which the platform refuses. *)
Example second_call_during_outage :
  let t := @get_or_create_set ascii_runtime header_pillow
             (update_of empty_message) video in
  let out1 := run outage_handle t fresh_platform in
  let out2 := run outage_handle t out1.1.2 in
  out1.1.1 = Ok (lit "my_bot__video_by_StickBot", lit "Alice's Video Stickers")
  ∧ out2.1.1 = Err (TelegramError (lit "Sticker set name is already occupied"))
  ∧ create_calls (out1.2 ++ out2.2) = 2%nat
  ∧ creations (out1.2 ++ out2.2) = 1%nat.
Proof. vm_compute. done. Qed.

(** ** Failures of the look-up and of the create call *)

(** C6.  On any platform and for every exception [e] the look-up raises,
    [get_or_create_set] goes on exactly as its creation path does from the
    world the look-up left: its result is the result of that path and [e]
    is not raised to the caller.  For a video set the creation path begins
    with the create call; for a static set it raises at the look-up of the
    format (line 174) before any call. *)
Theorem C6_lookup_failure_means_absent `{Runtime} `{Pillow} {W : Type}
  (h : handler (E := api) W) (update : Update) (kind : Kind)
  (w w1 w2 : W) (bot : User) (e : exn) :
  let user := effective_user update in
  let name := set_name user (format_opt (username bot)) kind in
  let title := set_title user kind in
  h _ GetMe w = (Ok bot, w1) →
  h _ (GetStickerSet name) w1 = (Err e, w2) →
  is_Exception e = true →
  run h (get_or_create_set update kind) w
  = (let '(r, w3, tr) := run h (create_set user kind name title) w2 in
     (r, w3, Ev GetMe (Ok bot) :: Ev (GetStickerSet name) (Err e) :: tr))
  ∧ (kind = video →
       ∃ k, create_set user kind name title
            = Call (CreateNewStickerSet (user_id user) name title
                      [placeholder_sticker] VIDEO REGULAR) k)
  ∧ (kind = static →
       create_set user kind name title = Raise (AttributeError (lit "WEBP"))).
Proof.
  cbn zeta. intros Hme Hget He. split.
  - by apply (run_lookup_failed h update kind w w1 w2).
  - split; intros ->.
    + apply (create_set_begins (effective_user update) video).
    + apply (create_set_begins (effective_user update) static).
Qed.

(** C6 on a platform without sets: the look-up raises and the video set
    is created. *)
Lemma C6_lookup_failure_means_absent_witness :
  let t := @get_or_create_set ascii_runtime header_pillow
             (update_of empty_message) video in
  let name := lit "my_bot__video_by_StickBot" in
  tg_handle _ (GetStickerSet name) fresh_platform
    = (Err (TelegramError (lit "Stickerset_invalid")), fresh_platform)
  ∧ (run tg_handle t fresh_platform).1.1
    = Ok (name, lit "Alice's Video Stickers").
Proof.
  cbn zeta. split; [reflexivity|].
  destruct (@C6_lookup_failure_means_absent ascii_runtime header_pillow Platform
              tg_handle (update_of empty_message) video
              fresh_platform fresh_platform fresh_platform stickbot
              (TelegramError (lit "Stickerset_invalid")))
    as [Hrun _]; [reflexivity | reflexivity | reflexivity |].
  rewrite Hrun. vm_compute. reflexivity.
Defined.

(** C4 fails: two coroutines provision the video set of the same owner on
    a platform that has none.  Each asks for the bot and looks the set up
    before the other creates it; the first then creates the set and returns
    its name, and the second gets the refusal of its create call raised. *)
Lemma C4_losing_caller_gets_the_error :
  let t := @get_or_create_set ascii_runtime header_pillow
             (update_of empty_message) video in
  (interleave tg_handle [true; false; true; false] t t fresh_platform).1
  = (Ok (lit "my_bot__video_by_StickBot", lit "Alice's Video Stickers"),
     Err (TelegramError (lit "Sticker set name is already occupied"))).
Proof. vm_compute. reflexivity. Qed.

(** The loser's message: [handle_media] on an animation catches the
    exception and tells the user. *)
Example losing_caller_is_told :
  sent (run (io_handle raced_handle working_exec)
          (@handle_media ascii_runtime header_pillow (lit "ffmpeg")
             (update_of animation_message))
          (platform_with_animation, empty_fs (Some (lit "/usr/bin/ffmpeg")))).1.2.1
  = [SentAction 42 UPLOAD_DOCUMENT;
     SentText (Failed (lit "Sticker set name is already occupied"))].
Proof. vm_compute. reflexivity. Qed.

(** C4, amended.  On any platform, for a video set (the kind for which the
    code reaches its create call): when the look-up raised and the create
    call fails, whatever the reason, the exception of the create call is
    raised to the caller of [get_or_create_set]; no name is returned and no
    further call is made. *)
Theorem C4_create_failure_is_raised `{Runtime} `{Pillow} {W : Type}
  (h : handler (E := api) W) (update : Update)
  (w w1 w2 w3 : W) (bot : User) (e e' : exn) :
  let user := effective_user update in
  let name := set_name user (format_opt (username bot)) video in
  let create :=
    CreateNewStickerSet (user_id user) name (set_title user video)
      [placeholder_sticker] VIDEO REGULAR in
  h _ GetMe w = (Ok bot, w1) →
  h _ (GetStickerSet name) w1 = (Err e, w2) →
  is_Exception e = true →
  h _ create w2 = (Err e', w3) →
  run h (get_or_create_set update video) w
  = (Err e', w3,
     [Ev GetMe (Ok bot); Ev (GetStickerSet name) (Err e); Ev create (Err e')]).
Proof.
  cbn zeta. intros Hme Hget He Hcreate.
  rewrite (run_lookup_failed h update video w w1 w2 bot e Hme Hget He).
  rewrite create_set_video. cbn. by rewrite Hcreate.
Qed.

(** C4, amended, on the platform as the loser of a race sees it. *)
Lemma C4_create_failure_is_raised_witness :
  let t := @get_or_create_set ascii_runtime header_pillow
             (update_of empty_message) video in
  (run raced_handle t fresh_platform).1.1
  = Err (TelegramError (lit "Sticker set name is already occupied")).
Proof.
  cbn zeta.
  rewrite (@C4_create_failure_is_raised ascii_runtime header_pillow Platform
             raced_handle (update_of empty_message)
             fresh_platform fresh_platform
             (rival_creates (lit "my_bot__video_by_StickBot") fresh_platform)
             (rival_creates (lit "my_bot__video_by_StickBot") fresh_platform)
             stickbot
             (TelegramError (lit "Stickerset_invalid"))
             (TelegramError (lit "Sticker set name is already occupied")));
    reflexivity.
Defined.

(** ** Messages without media *)

Section RaiseFacts.
Context `{Runtime}.

(** The [raise] statements of [tg_download_to_bytes]: lines 62 and 88. *)
Lemma download_raises update e :
  raises (tg_download_to_bytes update) e →
  (message update = None ∧ e = RuntimeError (lit "No message to process."))
  ∨ ((∃ msg, message update = Some msg ∧ no_media msg)
     ∧ e = RuntimeError (lit "Unsupported message type.")).
Proof.
  unfold tg_download_to_bytes, no_media.
  destruct (message update) as [msg|]; [|intros <-; by left].
  destruct (last (photo msg)) as [fid|] eqn:Hphoto;
    [by intros (file & b & [])|].
  apply last_None in Hphoto.
  destruct (animation msg) as [fid|] eqn:Hanim; [by intros (file & b & [])|].
  destruct (video_att msg) as [fid|] eqn:Hvideo; [by intros (file & b & [])|].
  destruct (document msg) as [fid|] eqn:Hdoc; [by intros (file & b & [])|].
  intros <-. right. split; [|done]. by exists msg.
Qed.

(** The [raise] statements of [video_to_sticker_webm] and of
    [ensure_ffmpeg], which it calls: lines 114 and 139. *)
Lemma video_raises ff src_bytes e :
  raises (video_to_sticker_webm ff src_bytes) e →
  e = RuntimeError
        (lit "FFmpeg not found. Please install FFmpeg and ensure it's in PATH.")
  ∨ ∃ detail, e = RuntimeError (lit "FFmpeg failed: " ++ detail).
Proof.
  unfold video_to_sticker_webm, ensure_ffmpeg, with_TemporaryDirectory.
  intros (p & Hp). revert Hp. cbn.
  destruct (negb (truthy (or_else p []))); [intros <-; by left|].
  cbn. intros (td & [] & proc & Hproc). revert Hproc. cbn.
  destruct (negb (returncode proc =? 0)); cbn.
  - intros ([] & <-). right. eauto.
  - intros (made & Hmade). revert Hmade.
    destruct (negb made); cbn.
    + intros ([] & <-). right. eauto.
    + by intros (b & [] & []).
Qed.

End RaiseFacts.

(** C9 fails: the exception for a message without media and the exception
    for a transcoder that is not installed are of one class. *)
Lemma C9_error_class_is_shared :
  let unsupported := RuntimeError (lit "Unsupported message type.") in
  let unavailable :=
    RuntimeError
      (lit "FFmpeg not found. Please install FFmpeg and ensure it's in PATH.") in
  @tg_download_to_bytes ascii_runtime (update_of empty_message) = Raise unsupported
  ∧ (run (os_handle failing_exec)
       (@video_to_sticker_webm ascii_runtime (lit "ffmpeg") [Byte.x47])
       (empty_fs None)).1.1 = Err unavailable
  ∧ ¬ Spec.distinct_error unsupported unavailable.
Proof.
  cbn zeta. split; [reflexivity|]. split; [reflexivity|].
  intros Hdistinct. by apply Hdistinct.
Qed.

(** C9, amended.  For a message without photo, animation, video and
    document, [tg_download_to_bytes] raises
    [RuntimeError("Unsupported message type.")] before any call.  Every
    exception that [tg_download_to_bytes] (on any update) and
    [video_to_sticker_webm] raise themselves is of that same class; the one
    for an update without a message and those of the video converter differ
    from it in their text, which is all that tells them apart. *)
Theorem C9_unsupported_media `{Runtime} (update : Update) (msg : Message) :
  message update = Some msg →
  no_media msg →
  let unsupported := RuntimeError (lit "Unsupported message type.") in
  tg_download_to_bytes update = Raise unsupported
  ∧ (∀ update' e, raises (tg_download_to_bytes update') e →
       exn_class e = exn_class unsupported
       ∧ (message update' = None → exn_str e ≠ exn_str unsupported))
  ∧ (∀ ff src_bytes e, raises (video_to_sticker_webm ff src_bytes) e →
       exn_class e = exn_class unsupported
       ∧ exn_str e ≠ exn_str unsupported).
Proof.
  intros Hmsg (Hphoto & Hanim & Hvideo & Hdoc). cbn zeta. split; [|split].
  - unfold tg_download_to_bytes. by rewrite Hmsg, Hphoto, Hanim, Hvideo, Hdoc.
  - intros update' e [[Hnone ->]|[[msg' [Hsome _]] ->]]%download_raises.
    + split; [done|]. intros _. discriminate.
    + split; [done|]. intros Hnone. congruence.
  - intros ff src_bytes e [->|[detail ->]]%video_raises.
    + split; [done|]. discriminate.
    + split; [done|]. discriminate.
Qed.

(** C9, amended, on a message that carries nothing, and the two other
    exceptions of the functions. *)
Lemma C9_unsupported_media_witness :
  @tg_download_to_bytes ascii_runtime (update_of empty_message)
  = Raise (RuntimeError (lit "Unsupported message type."))
  ∧ raises (@tg_download_to_bytes ascii_runtime
              {| message := None; effective_user := alice; effective_chat := 42 |})
      (RuntimeError (lit "No message to process."))
  ∧ raises (@video_to_sticker_webm ascii_runtime (lit "ffmpeg") [Byte.x47])
      (RuntimeError (lit "FFmpeg failed: boom")).
Proof.
  split; [|split].
  - apply (@C9_unsupported_media ascii_runtime (update_of empty_message) empty_message).
    + reflexivity.
    + by repeat split.
  - reflexivity.
  - exists (Some (lit "/usr/bin/ffmpeg")), (lit "/tmp/x"), tt,
      {| returncode := 1; stderr := [Byte.x62; Byte.x6f; Byte.x6f; Byte.x6d] |}.
    cbn. exists tt. reflexivity.
Defined.

(** What the user is told for such a message. *)
Example unsupported_media_reply :
  sent (run (io_handle tg_handle failing_exec)
          (@handle_media ascii_runtime header_pillow (lit "ffmpeg")
             (update_of empty_message))
          (fresh_platform, empty_fs None)).1.2.1
  = [SentAction 42 UPLOAD_DOCUMENT;
     SentText (Failed (lit "Unsupported message type."))].
Proof. vm_compute. reflexivity. Qed.

(** ** The temporary directory of the video converter *)

#[local] Arguments path_join : simpl never.
#[local] Arguments ffmpeg_cmd : simpl never.
#[local] Arguments decode_ignore : simpl never.
#[local] Arguments finally : simpl never.

Section TempdirFacts.
Context `{Runtime}.
Context (h : handler (E := os) FS).

Lemma rmtree_released td fs : released td (rmtree td fs).
Proof.
  unfold released, rmtree. cbn [dirs files]. split.
  - rewrite elem_of_filter. intros [[Hne _] _]. done.
  - intros p Hin. split.
    + apply map_lookup_filter_None. right. intros x _ Hkeep. by apply Hkeep.
    + rewrite elem_of_filter. intros [[_ Hout] _]. done.
Qed.

(** The block under [with] makes no temporary directory of its own. *)
Lemma body_makes_no_tempdir ff src td fs td' :
  ¬ Exists (made_tempdir td')
      (run h
         (call (WriteBytes (path_join td (lit "in.bin")) src);;
          proc ← call (SubprocessRun
                         (ffmpeg_cmd ff (path_join td (lit "in.bin"))
                            (path_join td (lit "out.webm"))));
          made ← (if negb (returncode proc =? 0) then mret false
                  else call (PathExists (path_join td (lit "out.webm"))));
          if negb made
          then Raise (RuntimeError
                 (lit "FFmpeg failed: " ++ take 500 (decode_ignore (stderr proc))))
          else call (ReadBytes (path_join td (lit "out.webm"))))
         fs).2.
Proof.
  cbn.
  destruct (h _ (WriteBytes _ _) fs) as [[[]|e] fs1]; cbn.
  2:{ rewrite Exists_cons, Exists_nil. cbn. tauto. }
  destruct (h _ (SubprocessRun _) fs1) as [[proc|e] fs2]; cbn.
  2:{ rewrite !Exists_cons, Exists_nil. cbn. tauto. }
  destruct (returncode proc =? 0); cbn.
  2:{ rewrite !Exists_cons, Exists_nil. cbn. tauto. }
  destruct (h _ (PathExists _) fs2) as [[[]|e] fs3]; cbn.
  2,3:(rewrite !Exists_cons, Exists_nil; cbn; tauto).
  destruct (h _ (ReadBytes _) fs3) as [[b|e] fs4]; cbn;
    rewrite !Exists_cons, Exists_nil; cbn; tauto.
Qed.

(** When the binary is not found the function raises after that one call. *)
Lemma run_ffmpeg_missing ff src fs fs1 :
  h _ (Which ff) fs = (Ok None, fs1) →
  run h (video_to_sticker_webm ff src) fs
  = (Err (RuntimeError
       (lit "FFmpeg not found. Please install FFmpeg and ensure it's in PATH.")),
     fs1, [Ev (Which ff) (Ok None)]).
Proof.
  intros Hwhich. unfold video_to_sticker_webm, ensure_ffmpeg. cbn.
  by rewrite Hwhich.
Qed.

(** Every directory made during a run is released at its end. *)
Lemma run_releases_tempdir ff src fs td :
  removes_trees h →
  Exists (made_tempdir td) (run h (video_to_sticker_webm ff src) fs).2 →
  released td (run h (video_to_sticker_webm ff src) fs).1.2.
Proof.
  intros Hrm. unfold video_to_sticker_webm, ensure_ffmpeg, with_TemporaryDirectory.
  cbn.
  destruct (h _ (Which ff) fs) as [[found|e] fs1]; cbn.
  2:{ rewrite Exists_cons, Exists_nil. cbn. tauto. }
  destruct (truthy (or_else found [])); cbn.
  2:{ rewrite Exists_cons, Exists_nil. cbn. tauto. }
  destruct (h _ Mkdtemp fs1) as [[d|e] fs2]; cbn.
  2:{ rewrite !Exists_cons, Exists_nil. cbn. tauto. }
  rewrite run_finally.
  match goal with
  | |- context [run h ?b fs2] =>
      pose proof (body_makes_no_tempdir ff src d fs2 td
                  : ¬ Exists (made_tempdir td) (run h b fs2).2) as Hbody;
      destruct (run h b fs2) as [[rb fsb] trb]
  end.
  rewrite run_call, Hrm. cbn.
  rewrite !Exists_cons, Exists_app, Exists_cons, Exists_nil. cbn.
  intros [Hw|[Hd|[Hb|[[]|[]]]]]; [done| |done].
  subst d. apply rmtree_released.
Qed.

End TempdirFacts.

(** C7.  Whatever the calls into the operating system return or raise, as
    long as a directory tree is removed when the converter asks for it:
    every temporary directory made during a run of [video_to_sticker_webm]
    is gone at its end, with everything inside, whether the function
    returns or raises; and when the transcoder is not found, the function
    raises after that single look-up, before any directory or file is
    made. *)
Theorem C7_tempdir_released `{Runtime} (h : handler (E := os) FS)
  (ff : str) (src_bytes : bytes) (fs : FS) :
  removes_trees h →
  let '(r, fs', tr) := run h (video_to_sticker_webm ff src_bytes) fs in
  (∀ td, Exists (made_tempdir td) tr → released td fs')
  ∧ (∀ fs1, h _ (Which ff) fs = (Ok None, fs1) →
       r = Err (RuntimeError
             (lit "FFmpeg not found. Please install FFmpeg and ensure it's in PATH."))
       ∧ fs' = fs1 ∧ tr = [Ev (Which ff) (Ok None)]).
Proof.
  intros Hrm.
  pose proof (fun td => run_releases_tempdir h ff src_bytes fs td Hrm) as Hrel.
  pose proof (run_ffmpeg_missing h ff src_bytes fs) as Hmiss.
  destruct (run h (video_to_sticker_webm ff src_bytes) fs) as [[r fs'] tr].
  split; [exact Hrel|].
  intros fs1 Hwhich. specialize (Hmiss fs1 Hwhich). by injection Hmiss as -> -> ->.
Qed.

(** C7 at a run whose transcoder fails: the directory was made and is gone. *)
Lemma C7_tempdir_released_witness :
  let fs := empty_fs (Some (lit "/usr/bin/ffmpeg")) in
  let out := run (os_handle failing_exec)
               (@video_to_sticker_webm ascii_runtime (lit "ffmpeg") [Byte.x47]) fs in
  out.1.1 = Err (RuntimeError (lit "FFmpeg failed: "))
  ∧ Exists (made_tempdir (lit "/tmp/tmp0")) out.2
  ∧ released (lit "/tmp/tmp0") out.1.2.
Proof.
  cbn zeta.
  assert (Hmade : Exists (made_tempdir (lit "/tmp/tmp0"))
            (run (os_handle failing_exec)
               (@video_to_sticker_webm ascii_runtime (lit "ffmpeg") [Byte.x47])
               (empty_fs (Some (lit "/usr/bin/ffmpeg")))).2).
  { apply Exists_cons_tl, Exists_cons_hd. reflexivity. }
  split; [reflexivity|]. split; [exact Hmade|].
  pose proof (@C7_tempdir_released ascii_runtime (os_handle failing_exec)
                (lit "ffmpeg") [Byte.x47] (empty_fs (Some (lit "/usr/bin/ffmpeg")))
                (fun dir fs => eq_refl)) as Hthm.
  destruct (run (os_handle failing_exec)
              (@video_to_sticker_webm ascii_runtime (lit "ffmpeg") [Byte.x47])
              (empty_fs (Some (lit "/usr/bin/ffmpeg")))) as [[r fs'] tr].
  destruct Hthm as [Hrel _]. exact (Hrel _ Hmade).
Defined.

(** A run that succeeds returns the bytes of the output file and leaves
    no file and no directory. *)
Example successful_run_leaves_nothing :
  let out := run (os_handle working_exec)
               (@video_to_sticker_webm ascii_runtime (lit "ffmpeg") [Byte.x47])
               (empty_fs (Some (lit "/usr/bin/ffmpeg"))) in
  out.1.1 = Ok [Byte.x1a; Byte.x45]
  ∧ files out.1.2 = ∅ ∧ dirs out.1.2 = ∅.
Proof. vm_compute. done. Qed.

(** Without the transcoder nothing is made. *)
Example missing_transcoder_makes_nothing :
  run (os_handle working_exec)
    (@video_to_sticker_webm ascii_runtime (lit "ffmpeg") [Byte.x47]) (empty_fs None)
  = (Err (RuntimeError
       (lit "FFmpeg not found. Please install FFmpeg and ensure it's in PATH.")),
     empty_fs None, [Ev (Which (lit "ffmpeg")) (Ok None)]).
Proof. reflexivity. Qed.

(** ** The transcoder invocation *)

Section TranscoderFacts.
Import Ffmpeg.

(** The options are the argument vector of the source, word for word. *)
Lemma sticker_options_render ff in_path out_path :
  render ff (sticker_options in_path out_path) = ffmpeg_cmd ff in_path out_path.
Proof. reflexivity. Qed.

Lemma scale_size_width iw ih w :
  0 <= w → (scale_size iw ih w (-2) decrease).1 <= w.
Proof.
  intros Hw. unfold scale_size.
  change (-2 <? -1) with true. change (-2 <? 0) with true.
  destruct (Z.ltb_spec w 0) as [?|_]; [lia|].
  destruct (w <? -1); cbn; destruct (Z.ltb_spec w 0); lia.
Qed.

(** What the invocation does bound, for a clip of positive width: no
    sound, at most three seconds, 30 frames per second, and a width of at
    most 512 that is never above the width of the input. *)
Lemma transcode_bounds in_path out_path (c : Clip) :
  0 < width c →
  let c' := transcode (sticker_options in_path out_path) c in
  audio c' = false ∧ millis c' <= 3000 ∧ rate c' = 30000
  ∧ width c' <= 512 ∧ width c' <= width c.
Proof.
  intros Hw. destruct c as [iw ih ms r a]. cbn [width] in Hw.
  cbn zeta. unfold transcode, sticker_options.
  cbn [foldl apply_option apply_filter eval width height millis rate audio].
  pose proof (scale_size_width iw ih (Z.min 512 iw) ltac:(lia)) as Hscale.
  destruct (scale_size iw ih (Z.min 512 iw) (-2) decrease) as [w' h'].
  cbn [fst width height millis rate audio] in *.
  repeat split; lia.
Qed.

End TranscoderFacts.

(** C2, at a portrait clip of 720x1280 pixels.  The options built by
    [video_to_sticker_webm] are those of the argument vector; the filter
    [scale='min(512,iw)':-2] caps the width at 512 and derives the height
    from it, so the clip comes out 512 wide and 910 high: silent, three
    seconds long, at 30 frames per second, and with a longer side of 910. *)
Theorem C2_portrait_longer_side_910 (ff in_path out_path : str) :
  Ffmpeg.render ff (Ffmpeg.sticker_options in_path out_path)
    = ffmpeg_cmd ff in_path out_path
  ∧ Ffmpeg.transcode (Ffmpeg.sticker_options in_path out_path) portrait
    = {| Ffmpeg.width := 512; Ffmpeg.height := 910; Ffmpeg.millis := 3000;
         Ffmpeg.rate := 30000; Ffmpeg.audio := false |}
  ∧ Ffmpeg.longer_side
      (Ffmpeg.transcode (Ffmpeg.sticker_options in_path out_path) portrait) = 910.
Proof. repeat split. Qed.

(** * Further properties *)

(** ** Names *)

Section MoreNameFacts.
Context `{Runtime}.

Lemma slug_char_word c : slug_char c = true → word_char c = true.
Proof.
  unfold slug_char, word_char. rewrite !orb_true_iff. tauto.
Qed.

Lemma slug_char_lower c : slug_char c = true → ascii_lower c = c.
Proof.
  unfold slug_char, ascii_lower.
  rewrite !orb_true_iff, !in_range_spec, N.eqb_eq. intros Hc.
  destruct (in_range 65 90 c) eqn:E; [|done].
  apply in_range_spec in E. lia.
Qed.

(** The code point written for [c] is a lower-case letter, a digit or the
    underscore. *)
Lemma sanitized_char_slug c :
  slug_char (ascii_lower (if word_char c then c else 95%N)) = true.
Proof.
  destruct (word_char c) eqn:Hw; [|reflexivity].
  unfold word_char in Hw. unfold slug_char, ascii_lower.
  destruct (in_range 65 90 c) eqn:Hup.
  - apply in_range_spec in Hup.
    assert (Hlow : in_range 97 122 (c + 32) = true) by (apply in_range_spec; lia).
    by rewrite Hlow.
  - rewrite !orb_true_iff in Hw. rewrite !orb_true_iff.
    destruct Hw as [[[?|?]|?]|?]; [tauto | congruence | tauto | tauto].
Qed.

End MoreNameFacts.

(** X1.  For a user with a handle, the token [sanitize_username] returns is
    as long as the handle and consists of lower-case letters, digits and
    underscores only. *)
Theorem sanitize_username_slug `{Runtime} (username : str) (user_id : Z) :
  username ≠ [] →
  length (sanitize_username username user_id) = length username
  ∧ Forall (fun c => slug_char c = true) (sanitize_username username user_id).
Proof.
  intros Hne. rewrite sanitize_username_spec. unfold Spec.sanitize.
  destruct username as [|c username]; [done|]. split.
  - by rewrite length_fmap.
  - apply Forall_fmap, Forall_forall. intros x _. apply sanitized_char_slug.
Qed.

Lemma sanitize_username_slug_witness :
  lit "My.Bot!" ≠ []
  ∧ length (@sanitize_username ascii_runtime (lit "My.Bot!") 42) = 7%nat
  ∧ Forall (fun c => slug_char c = true)
      (@sanitize_username ascii_runtime (lit "My.Bot!") 42).
Proof.
  split; [discriminate|].
  apply (@sanitize_username_slug ascii_runtime (lit "My.Bot!") 42). discriminate.
Defined.

(** X2.  Sanitizing is idempotent on handles: the token of a handle is its
    own token, for whatever user id. *)
Theorem sanitize_username_idempotent `{Runtime} (username : str) (id1 id2 : Z) :
  username ≠ [] →
  sanitize_username (sanitize_username username id1) id2
  = sanitize_username username id1.
Proof.
  intros Hne. rewrite !sanitize_username_spec.
  destruct username as [|c username]; [done|].
  unfold Spec.sanitize at 2. cbn [fmap list_fmap].
  unfold Spec.sanitize. cbn [fmap list_fmap].
  pose proof (sanitized_char_slug c) as Hc.
  rewrite (slug_char_word _ Hc), (slug_char_lower _ Hc). f_equal.
  rewrite <- list_fmap_compose. apply list_fmap_ext. intros _ x _. cbn.
  pose proof (sanitized_char_slug x) as Hx.
  by rewrite (slug_char_word _ Hx), (slug_char_lower _ Hx).
Qed.

Lemma sanitize_username_idempotent_witness :
  @sanitize_username ascii_runtime
    (@sanitize_username ascii_runtime (lit "My.Bot!") 42) 7
  = lit "my_bot_".
Proof.
  rewrite (@sanitize_username_idempotent ascii_runtime (lit "My.Bot!") 42 7).
  - reflexivity.
  - discriminate.
Defined.

(** X3.  The static and the video set of one user under one bot never get
    the same name, and every set name ends in _by_ and the bot handle. *)
Theorem set_names_of_kinds_differ `{Runtime} (user : User) (bot_username : str) :
  set_name user bot_username static ≠ set_name user bot_username video
  ∧ ∀ kind, (lit "_by_" ++ bot_username) `suffix_of` set_name user bot_username kind.
Proof.
  split.
  - unfold set_name. cbn [decide Kind_eq_dec]. intros Heq.
    apply app_inv_head in Heq. discriminate Heq.
  - intros kind. unfold set_name.
    eexists (_ ++ _). by rewrite <- app_assoc.
Qed.

(** ** Tags *)

(** X4.  Whatever the caption, the tag put on the sticker has at least one
    and at most ten code points. *)
Theorem sticker_tag_length (caption : option str) :
  (1 <= length (sticker_tag caption) <= 10)%nat.
Proof.
  rewrite sticker_tag_caption_emoji, caption_emoji_cases. cbn zeta.
  case_decide as Hc; [|cbn; lia].
  destruct Hc as [Hne Hlen].
  destruct (strip (or_else caption [])); [done | cbn in *; lia].
Qed.

(** ** Sizes of static stickers *)

Section MoreStaticFacts.

Lemma longer_side_fits_upto_8192 m : 512 < m <= 8192 → longer_side_fits m = true.
Proof.
  intros Hm.
  assert (Hall : forallb longer_side_fits (seqZ 513 7680) = true)
    by (vm_compute; reflexivity).
  rewrite forallb_forall in Hall. apply Hall.
  apply list_elem_of_In, elem_of_seqZ. lia.
Qed.

(** The two sides that [fit_512] asks [resize] for, when the longer side
    is above 512 and at most 8192. *)
Lemma fit_512_large (im im' : Image) :
  512 < Z.max (im_size im).1 (im_size im).2 <= 8192 →
  fit_512 im = Ok im' →
  im_mode im' = im_mode im
  ∧ ((im_size im).2 <= (im_size im).1 →
       (im_size im').1 = 511 ∨ (im_size im').1 = 512)
  ∧ ((im_size im).1 <= (im_size im).2 →
       (im_size im').2 = 511 ∨ (im_size im').2 = 512).
Proof.
  intros Hm. pose proof (longer_side_fits_upto_8192 _ Hm) as Hfit.
  unfold fit_512, longer_side_fits in *.
  destruct (im_size im) as [w h]. cbn [fst snd] in *.
  destruct (float_div_int 512 (Z.max w h)) as [scale|e]; [|done].
  cbn in Hfit |- *.
  destruct (PrimFloat.ltb scale 1); [|done]. cbn in Hfit.
  destruct (int_mul_float (Z.max w h) scale ≫= int_of_float) as [r|e] eqn:Hr; [|done].
  assert (Hr' : r = 511 ∨ r = 512).
  { apply orb_true_iff in Hfit as [?%Z.eqb_eq|?%Z.eqb_eq]; auto. }
  destruct (int_mul_float w scale ≫= int_of_float) as [w'|e] eqn:Hw; [|done].
  cbn.
  destruct (int_mul_float h scale ≫= int_of_float) as [h'|e] eqn:Hh; [|done].
  cbn. unfold resize. cbn [fst snd].
  destruct ((w' <? 1) || (h' <? 1)); [done|].
  intros [= <-]. cbn [im_mode im_size fst snd].
  split; [done|]. split; intros Hle.
  - rewrite Z.max_l in Hr by done. rewrite Hw in Hr. by injection Hr as ->.
  - rewrite Z.max_r in Hr by done. rewrite Hh in Hr. by injection Hr as ->.
Qed.

End MoreStaticFacts.

(** X5.  No upscaling: an image whose longer side is between 1 and 512
    pixels is saved in its own size, in mode RGBA, with method 6 and
    quality 95. *)
Theorem small_image_keeps_size `{Pillow} (src_bytes : bytes) (im : Image) :
  image_open src_bytes = Ok im →
  1 <= Z.max (im_size im).1 (im_size im).2 <= 512 →
  ∃ out, image_to_sticker_webp src_bytes = Ok (webp_save out 6 95)
         ∧ im_size out = im_size im ∧ im_mode out = RGBA.
Proof.
  intros Hopen Hm. exists (convert RGBA im).
  by rewrite (image_to_sticker_webp_small src_bytes im Hopen Hm).
Qed.

Lemma small_image_keeps_size_witness :
  ∃ out, @image_to_sticker_webp header_pillow [Byte.x19; Byte.x32]
           = Ok (@webp_save header_pillow out 6 95)
         ∧ im_size out = (100, 200) ∧ im_mode out = RGBA.
Proof.
  apply (@small_image_keeps_size header_pillow [Byte.x19; Byte.x32]
           {| im_mode := OtherMode (lit "RGB"); im_size := (100, 200) |}).
  - reflexivity.
  - cbn. lia.
Defined.

(** X6.  Downscaling: for an image whose longer side is above 512 and at
    most 8192 pixels, every sticker that [image_to_sticker_webp] returns is
    the WEBP of an RGBA image whose side along the longer side of the input
    is 511 or 512 pixels: never more than 512, and never less than 511. *)
Theorem large_image_longer_side `{Pillow} (src_bytes b : bytes) (im : Image) :
  image_open src_bytes = Ok im →
  512 < Z.max (im_size im).1 (im_size im).2 <= 8192 →
  image_to_sticker_webp src_bytes = Ok b →
  ∃ out, b = webp_save out 6 95 ∧ im_mode out = RGBA
         ∧ ((im_size im).2 <= (im_size im).1 →
              (im_size out).1 = 511 ∨ (im_size out).1 = 512)
         ∧ ((im_size im).1 <= (im_size im).2 →
              (im_size out).2 = 511 ∨ (im_size out).2 = 512).
Proof.
  intros Hopen Hm. unfold image_to_sticker_webp. rewrite Hopen. cbn.
  destruct (fit_512 (convert RGBA im)) as [out|e] eqn:Hfit; [|done].
  cbn. intros [= <-]. exists out.
  destruct (fit_512_large (convert RGBA im) out Hm Hfit) as (Hmode & Hw & Hh).
  repeat split; done.
Qed.

Lemma large_image_longer_side_witness :
  ∃ out, [Byte.x80; Byte.x60] = @webp_save header_pillow out 6 95
         ∧ im_mode out = RGBA
         ∧ ((768 <= 1020) → (im_size out).1 = 511 ∨ (im_size out).1 = 512)
         ∧ ((1020 <= 768) → (im_size out).2 = 511 ∨ (im_size out).2 = 512).
Proof.
  apply (@large_image_longer_side header_pillow [Byte.xff; Byte.xc0]
           [Byte.x80; Byte.x60]
           {| im_mode := OtherMode (lit "RGB"); im_size := (1020, 768) |}).
  - reflexivity.
  - cbn. lia.
  - reflexivity.
Defined.

(** ** Downloads *)

#[local] Arguments lower : simpl never.
#[local] Arguments path_suffix : simpl never.

Section MoreDownloadFacts.
Context `{Runtime}.
Context {W : Type} (h : handler (E := api) W).

Lemma or_else_truthy (x : option str) (d : str) : d ≠ [] → or_else x d ≠ [].
Proof.
  intros Hd. destruct x as [[|c s]|]; cbn; done.
Qed.

End MoreDownloadFacts.

(** X7.  On any platform, when [tg_download_to_bytes] returns, the
    extension it returns is not empty; it is .jpg for a message with a
    photo and .gif for a message with an animation and no photo, whatever
    the path of the file on the platform. *)
Theorem download_extension `{Runtime} {W : Type} (h : handler (E := api) W)
  (update : Update) (w : W) (b : bytes) (ext : str) :
  (run h (tg_download_to_bytes update) w).1.1 = Ok (b, ext) →
  ext ≠ []
  ∧ ∃ msg, message update = Some msg
      ∧ (photo msg ≠ [] → ext = lit ".jpg")
      ∧ (photo msg = [] → is_Some (animation msg) → ext = lit ".gif").
Proof.
  unfold tg_download_to_bytes.
  destruct (message update) as [msg|]; [|done].
  destruct (last (photo msg)) as [fid|] eqn:Hphoto.
  - rewrite run_bind.
    destruct (run h (download fid) w) as [[[[file b']|e] w1] tr]; cbn; [|done].
    intros [= <- <-]. split; [done|]. exists msg. split; [done|]. split; [done|].
    intros Hnil. by rewrite Hnil in Hphoto.
  - apply last_None in Hphoto.
    destruct (animation msg) as [fid|] eqn:Hanim.
    + rewrite run_bind.
      destruct (run h (download fid) w) as [[[[file b']|e] w1] tr]; cbn; [|done].
      intros [= <- <-]. split; [done|]. exists msg. by repeat split.
    + destruct (video_att msg) as [fid|].
      * rewrite run_bind.
        destruct (run h (download fid) w) as [[[[file b']|e] w1] tr]; cbn; [|done].
        intros [= <- <-].
        split; [by apply (or_else_truthy (Some _) (lit ".mp4"))|].
        exists msg. repeat split; [done|]. intros _ [x Hx]. congruence.
      * destruct (document msg) as [fid|]; [|done].
        rewrite run_bind.
        destruct (run h (download fid) w) as [[[[file b']|e] w1] tr]; cbn; [|done].
        intros [= <- <-].
        split; [by apply (or_else_truthy (Some _) (lit ".bin"))|].
        exists msg. repeat split; [done|]. intros _ [x Hx]. congruence.
Qed.

Lemma download_extension_witness :
  lit ".jpg" ≠ []
  ∧ ∃ msg, message (update_of photo_message) = Some msg
      ∧ (photo msg ≠ [] → lit ".jpg" = lit ".jpg")
      ∧ (photo msg = [] → is_Some (animation msg) → lit ".jpg" = lit ".gif").
Proof.
  apply (@download_extension ascii_runtime Platform tg_handle
           (update_of photo_message) platform_with_photo [Byte.xc4; Byte.x93]).
  reflexivity.
Defined.

(** ** The video converter on the file system *)

Section MoreVideoFacts.
Context `{Runtime}.
Context (exec : list str → FS → result CompletedProcess * FS).

Lemma path_join_inside td name : inside td (path_join td name).
Proof. unfold inside, path_join. exists name. by rewrite <- app_assoc. Qed.

(** When the transcoder is found, it is started on the staged file system
    with the argument vector of [ffmpeg_cmd], and the run ends with the
    removal of the directory from what the transcoder left. *)
Lemma run_video_found ff src fs p :
  on_path fs ff = Some p → p ≠ [] →
  let td := tmp_name fs in
  let cmd := ffmpeg_cmd ff (path_join td (lit "in.bin")) (path_join td (lit "out.webm")) in
  (run (os_handle exec) (video_to_sticker_webm ff src) fs).1
  = (match (exec cmd (staged fs src)).1 with
     | Err e => Err e
     | Ok proc =>
         let fs2 := (exec cmd (staged fs src)).2 in
         let out := path_join td (lit "out.webm") in
         if negb (returncode proc =? 0)
            || negb (bool_decide (is_Some (files fs2 !! out) ∨ out ∈ dirs fs2))
         then Err (RuntimeError
                (lit "FFmpeg failed: " ++ take 500 (decode_ignore (stderr proc))))
         else match files fs2 !! out with
              | Some b => Ok b
              | None => Err (OSError (lit "No such file or directory"))
              end
     end,
     rmtree td (exec cmd (staged fs src)).2).
Proof.
  intros Hp Hne. cbn zeta.
  unfold video_to_sticker_webm, ensure_ffmpeg, with_TemporaryDirectory.
  cbn. rewrite Hp. cbn.
  destruct p as [|c p]; [done|]. cbn.
  rewrite run_finally. cbn. fold (staged fs src).
  destruct (exec _ (staged fs src)) as [[proc|e] fs2]; cbn; [|done].
  destruct (returncode proc =? 0); cbn; [|done].
  destruct (bool_decide _); cbn; [|done].
  by destruct (files fs2 !! _).
Qed.

End MoreVideoFacts.

(** X8.  When the transcoder is found and, started with the argument
    vector of [ffmpeg_cmd] on the file system that holds the input bytes in
    in.bin of the new directory, exits with 0 and leaves out.webm there,
    [video_to_sticker_webm] returns the bytes of out.webm and removes the
    directory. *)
Theorem video_returns_output `{Runtime}
  (exec : list str → FS → result CompletedProcess * FS)
  (ff p : str) (src_bytes err b : bytes) (fs fs2 : FS) :
  let td := tmp_name fs in
  let in_path := path_join td (lit "in.bin") in
  let out_path := path_join td (lit "out.webm") in
  on_path fs ff = Some p → p ≠ [] →
  exec (ffmpeg_cmd ff in_path out_path) (staged fs src_bytes)
    = (Ok {| returncode := 0; stderr := err |}, fs2) →
  files fs2 !! out_path = Some b →
  files (staged fs src_bytes) !! in_path = Some src_bytes
  ∧ (run (os_handle exec) (video_to_sticker_webm ff src_bytes) fs).1
    = (Ok b, rmtree td fs2).
Proof.
  cbn zeta. intros Hp Hne Hexec Hout. split.
  - unfold staged. cbn. apply lookup_insert_eq.
  - rewrite (run_video_found exec ff src_bytes fs p Hp Hne). cbn zeta.
    rewrite Hexec. cbn [fst snd returncode]. rewrite Hout.
    rewrite bool_decide_true by (left; eauto). done.
Qed.

Lemma video_returns_output_witness :
  (run (os_handle working_exec)
     (@video_to_sticker_webm ascii_runtime (lit "ffmpeg") [Byte.x47])
     (empty_fs (Some (lit "/usr/bin/ffmpeg")))).1.1
  = Ok [Byte.x1a; Byte.x45].
Proof.
  destruct (@video_returns_output ascii_runtime working_exec (lit "ffmpeg")
              (lit "/usr/bin/ffmpeg") [Byte.x47] [] [Byte.x1a; Byte.x45]
              (empty_fs (Some (lit "/usr/bin/ffmpeg")))
              (working_exec
                 (ffmpeg_cmd (lit "ffmpeg") (lit "/tmp/tmp0/in.bin")
                    (lit "/tmp/tmp0/out.webm"))
                 (staged (empty_fs (Some (lit "/usr/bin/ffmpeg"))) [Byte.x47])).2)
    as [_ Hrun]; [reflexivity | discriminate | reflexivity | reflexivity |].
  by rewrite Hrun.
Defined.

(** X9.  When the transcoder is found and exits with another code than 0,
    or leaves no out.webm, [video_to_sticker_webm] raises "FFmpeg failed: "
    followed by at most 500 code points of what the transcoder wrote to
    its error stream, and removes the directory all the same. *)
Theorem video_failure_message `{Runtime}
  (exec : list str → FS → result CompletedProcess * FS)
  (ff p : str) (src_bytes : bytes) (proc : CompletedProcess) (fs fs2 : FS) :
  let td := tmp_name fs in
  let in_path := path_join td (lit "in.bin") in
  let out_path := path_join td (lit "out.webm") in
  on_path fs ff = Some p → p ≠ [] →
  exec (ffmpeg_cmd ff in_path out_path) (staged fs src_bytes) = (Ok proc, fs2) →
  returncode proc ≠ 0 ∨ (files fs2 !! out_path = None ∧ (out_path ∉ dirs fs2)) →
  ∃ detail,
    (run (os_handle exec) (video_to_sticker_webm ff src_bytes) fs).1
    = (Err (RuntimeError (lit "FFmpeg failed: " ++ detail)), rmtree td fs2)
    ∧ detail `prefix_of` decode_ignore (stderr proc)
    ∧ (length detail <= 500)%nat.
Proof.
  cbn zeta. intros Hp Hne Hexec Hfail.
  exists (take 500 (decode_ignore (stderr proc))).
  split; [|split; [apply prefix_take | rewrite length_take; lia]].
  rewrite (run_video_found exec ff src_bytes fs p Hp Hne). cbn zeta.
  rewrite Hexec. cbn [fst snd].
  destruct Hfail as [Hcode|[Hnone Hnodir]].
  - apply Z.eqb_neq in Hcode. by rewrite Hcode.
  - rewrite bool_decide_false.
    + by rewrite orb_true_r.
    + intros [[x Hx]|Hd]; [congruence | done].
Qed.

Lemma video_failure_message_witness :
  (run (os_handle failing_exec)
     (@video_to_sticker_webm ascii_runtime (lit "ffmpeg") [Byte.x47])
     (empty_fs (Some (lit "/usr/bin/ffmpeg")))).1.1
  = Err (RuntimeError (lit "FFmpeg failed: ")).
Proof.
  destruct (@video_failure_message ascii_runtime failing_exec (lit "ffmpeg")
              (lit "/usr/bin/ffmpeg") [Byte.x47] {| returncode := 1; stderr := [] |}
              (empty_fs (Some (lit "/usr/bin/ffmpeg")))
              (staged (empty_fs (Some (lit "/usr/bin/ffmpeg"))) [Byte.x47]))
    as (detail & Hrun & Hpre & _);
    [reflexivity | discriminate | reflexivity | left; discriminate |].
  rewrite Hrun. apply prefix_nil_inv in Hpre. by rewrite Hpre.
Defined.

Section FrameFacts.
Context `{Runtime}.
Context (exec : list str → FS → result CompletedProcess * FS).

(** Removing a directory that did not exist before undoes everything that
    was done inside it. *)
Lemma rmtree_restores td fs fs2 :
  released td fs →
  same_outside td fs2 fs →
  files (rmtree td fs2) = files fs ∧ dirs (rmtree td fs2) = dirs fs.
Proof.
  intros [Hdir Hin] [Hfiles Hdirs]. unfold rmtree. cbn [files dirs]. split.
  - apply map_eq. intros p.
    destruct (decide (inside td p)) as [Hp|Hp].
    + rewrite (proj1 (Hin p Hp)).
      apply map_lookup_filter_None. right. intros x _ Hkeep. by apply Hkeep.
    + rewrite <- (Hfiles p Hp).
      destruct (files fs2 !! p) as [x|] eqn:Hx.
      * by apply map_lookup_filter_Some.
      * apply map_lookup_filter_None. by left.
  - apply set_eq. intros d. rewrite elem_of_filter. split.
    + intros [[Hne Hout] Hd]. by apply Hdirs.
    + intros Hd. assert (Hne : d ≠ td) by (intros ->; done).
      assert (Hout : ¬ inside td d) by (intros Hi; by apply (Hin d Hi)).
      split; [done|]. by apply Hdirs.
Qed.

Lemma staged_same_outside fs src : same_outside (tmp_name fs) (staged fs src) fs.
Proof.
  unfold same_outside, staged. cbn [files dirs]. split.
  - intros p Hp. apply lookup_insert_ne. intros <-.
    apply Hp, path_join_inside.
  - intros d Hne _. rewrite elem_of_union, elem_of_singleton. tauto.
Qed.

End FrameFacts.

(** X10.  The converter keeps to its directory: when [mkdtemp] hands out
    a directory of which nothing exists yet, and the transcoder, started as
    [video_to_sticker_webm] starts it, changes nothing outside that
    directory, then after the call, whether it returned or raised, the
    files and directories are those from before the call. *)
Theorem video_leaves_rest_alone `{Runtime}
  (exec : list str → FS → result CompletedProcess * FS)
  (ff : str) (src_bytes : bytes) (fs : FS) :
  let td := tmp_name fs in
  let cmd := ffmpeg_cmd ff (path_join td (lit "in.bin")) (path_join td (lit "out.webm")) in
  released td fs →
  same_outside td (exec cmd (staged fs src_bytes)).2 (staged fs src_bytes) →
  let fs' := (run (os_handle exec) (video_to_sticker_webm ff src_bytes) fs).1.2 in
  files fs' = files fs ∧ dirs fs' = dirs fs.
Proof.
  cbn zeta. intros Hfresh [Hf Hd].
  destruct (on_path fs ff) as [[|c p]|] eqn:Hp.
  1,3: (unfold video_to_sticker_webm, ensure_ffmpeg; cbn; rewrite Hp; done).
  rewrite (run_video_found exec ff src_bytes fs (c :: p) Hp) by done.
  cbn [fst snd]. apply rmtree_restores; [done|].
  destruct (staged_same_outside fs src_bytes) as [Hf' Hd'].
  split.
  - intros q Hq. by rewrite Hf, Hf'.
  - intros d Hne Hout. by rewrite Hd, Hd'.
Qed.

Lemma video_leaves_rest_alone_witness :
  let fs' := (run (os_handle working_exec)
                (@video_to_sticker_webm ascii_runtime (lit "ffmpeg") [Byte.x47])
                (empty_fs (Some (lit "/usr/bin/ffmpeg")))).1.2 in
  files fs' = ∅ ∧ dirs fs' = ∅.
Proof.
  apply (@video_leaves_rest_alone ascii_runtime working_exec (lit "ffmpeg")
           [Byte.x47] (empty_fs (Some (lit "/usr/bin/ffmpeg")))).
  - split; [apply not_elem_of_empty|].
    intros q _. split; [apply lookup_empty | apply not_elem_of_empty].
  - split; [|done].
    intros q Hq. apply lookup_insert_ne. intros <-. apply Hq.
    exists (lit "out.webm"). reflexivity.
Defined.

(** ** More on sticker sets *)

Section MoreRunFacts.
Context {E : Type → Type} {W : Type} (h : handler (E := E) W).

Lemma run_try_except {A} (t : Task E A) (k : exn → Task E A) (w : W) :
  run h (try_except t k) w
  = let '(r, w1, tr1) := run h t w in
    match r with
    | Ok a => (Ok a, w1, tr1)
    | Err e =>
        if is_Exception e
        then let '(r2, w2, tr2) := run h (k e) w1 in (r2, w2, tr1 ++ tr2)
        else (Err e, w1, tr1)
    end.
Proof.
  revert w. induction t as [a|e|X c k' IH]; intros w; cbn.
  - done.
  - destruct (is_Exception e); [|done].
    by destruct (run h (k e) w) as [[??]?].
  - destruct (h X c w) as [r w']. rewrite IH.
    destruct (run h (k' r) w') as [[[a|e] w1] tr1]; [done|].
    destruct (is_Exception e); [|done].
    by destruct (run h (k e) w1) as [[??]?].
Qed.

End MoreRunFacts.

Section MoreProvisionFacts.
Context `{Runtime} `{Pillow}.

(** The platform model and the platform with its look-up out of order
    raise errors of the platform only. *)
Lemma tg_handle_raises_Exceptions : raises_Exceptions_only tg_handle.
Proof.
  intros X c p e p'. destruct c; cbn; intros Hc;
    repeat case_match; by simplify_eq.
Qed.

Lemma outage_handle_raises_Exceptions : raises_Exceptions_only outage_handle.
Proof.
  intros X c p e p'. destruct c; cbn; intros Hc;
    repeat case_match; by simplify_eq.
Qed.

(** On any platform: what [get_or_create_set] returns is the name and the
    title it has made from the user, the kind and the name of the bot. *)
Lemma goc_returns_its_name {W : Type} (h : handler (E := api) W)
  update kind w a w' tr :
  run h (get_or_create_set update kind) w = (Ok a, w', tr) →
  ∃ bot, a = (set_name (effective_user update) (format_opt (username bot)) kind,
              set_title (effective_user update) kind).
Proof.
  unfold get_or_create_set. rewrite run_bind.
  destruct (run h (call GetMe) w) as [[[bot|e] w1] tr1]; [|done].
  rewrite run_bind.
  destruct (run h (lookup_set _) w1) as [[[[]|e] w2] tr2]; cbn.
  - intros [= <- _ _]. by exists bot.
  - destruct kind.
    + rewrite create_set_static. cbn. done.
    + rewrite create_set_video, run_bind.
      destruct (run h (call _) w2) as [[[[]|e] w3] tr3]; [|done].
      cbv beta iota. rewrite run_bind.
      destruct (run h (remove_placeholder _) w3) as [[[[]|e] w4] tr4]; cbn; [|done].
      intros [= <- _ _]. by exists bot.
  - done.
Qed.

End MoreProvisionFacts.

(** X11.  For a video set, on any platform whose failures are exceptions
    and on which writing a log line returns: once the create call has
    returned, [get_or_create_set] returns the name and the title of the set,
    whatever becomes of fetching the new set and deleting its placeholder. *)
Theorem cleanup_failure_is_not_fatal `{Runtime} `{Pillow} {W : Type}
  (h : handler (E := api) W) (update : Update)
  (w w1 w2 w3 : W) (bot : User) (e : exn) :
  let user := effective_user update in
  let name := set_name user (format_opt (username bot)) video in
  let title := set_title user video in
  raises_Exceptions_only h →
  logs h →
  h _ GetMe w = (Ok bot, w1) →
  h _ (GetStickerSet name) w1 = (Err e, w2) →
  h _ (CreateNewStickerSet (user_id user) name title [placeholder_sticker]
         VIDEO REGULAR) w2 = (Ok tt, w3) →
  (run h (get_or_create_set update video) w).1.1 = Ok (name, title).
Proof.
  cbn zeta. intros Hexn Hlog Hme Hget Hcreate.
  rewrite (run_lookup_failed h update video w w1 w2 bot e Hme Hget (Hexn _ _ _ _ _ Hget)).
  rewrite create_set_video. unfold remove_placeholder. cbn. rewrite Hcreate. cbn.
  destruct (h _ (GetStickerSet _) w3) as [[stset|e1] w4] eqn:Hget2; cbn.
  - destruct (stickers stset) as [|s l]; cbn; [done|].
    destruct (h _ (DeleteStickerFromSet _) w4) as [[[]|e2] w5] eqn:Hdel; cbn; [done|].
    rewrite (Hexn _ _ _ _ _ Hdel). cbn.
    destruct (Hlog (Warning (lit "Couldn't delete placeholder: " ++ exn_str e2)) w5)
      as [w6 ->]. done.
  - rewrite (Hexn _ _ _ _ _ Hget2). cbn.
    destruct (Hlog (Warning (lit "Couldn't delete placeholder: " ++ exn_str e1)) w4)
      as [w6 ->]. done.
Qed.

Lemma cleanup_failure_is_not_fatal_witness :
  let out := run outage_handle
               (@get_or_create_set ascii_runtime header_pillow
                  (update_of empty_message) video) fresh_platform in
  out.1.1 = Ok (lit "my_bot__video_by_StickBot", lit "Alice's Video Stickers")
  ∧ logged out.1.2 = [Warning (lit "Couldn't delete placeholder: Timed out")].
Proof.
  split; [|reflexivity].
  apply (@cleanup_failure_is_not_fatal ascii_runtime header_pillow Platform
           outage_handle (update_of empty_message)
           fresh_platform fresh_platform fresh_platform
           (outage_handle _
              (CreateNewStickerSet 42 (lit "my_bot__video_by_StickBot")
                 (lit "Alice's Video Stickers")
                 [@placeholder_sticker header_pillow] VIDEO REGULAR)
              fresh_platform).2
           stickbot (TelegramError (lit "Timed out"))).
  - apply outage_handle_raises_Exceptions.
  - intros line p. eexists. reflexivity.
  - reflexivity.
  - reflexivity.
  - reflexivity.
Defined.

(** X12.  On the platform, when the set does not exist:
    for kind video and a name the platform admits, [get_or_create_set]
    returns the name and the title and leaves a set under that name with the
    title, the user as owner and the format VIDEO, and with no sticker in
    it: the placeholder is gone; nothing is logged and nothing is sent.
    For kind static it raises [AttributeError("WEBP")] at the look-up of the
    format and leaves the platform as it was: no set is made. *)
Theorem new_set_is_empty `{Runtime} `{Pillow}
  (p : Platform) (update : Update) (kind : Kind) :
  let user := effective_user update in
  let name := set_name user (format_opt (username (bot_account p))) kind in
  registry p !! name = None →
  let out := run tg_handle (get_or_create_set update kind) p in
  match kind with
  | video =>
      accepts p name = true →
      out.1.1 = Ok (name, set_title user video)
      ∧ registry out.1.2 !! name
        = Some {| ss_name := name; ss_title := set_title user video;
                  ss_owner := user_id user; ss_format := VIDEO; stickers := [] |}
      ∧ logged out.1.2 = logged p ∧ sent out.1.2 = sent p
  | static =>
      out.1 = (Err (AttributeError (lit "WEBP")), p)
  end.
Proof.
  cbn zeta. intros Hs.
  rewrite (run_lookup_failed tg_handle update kind p p p (bot_account p)
             (TelegramError (lit "Stickerset_invalid"))); [|done|cbn; by rewrite Hs|done].
  destruct kind.
  { by rewrite create_set_static. }
  intros Hacc.
  rewrite create_set_video. unfold remove_placeholder. cbn. rewrite Hs, Hacc. cbn.
  rewrite lookup_insert_eq. cbn.
  rewrite bool_decide_true.
  2:{ apply map_Exists_insert_2_1. unfold has_sticker. cbn.
      apply bool_decide_eq_true. set_solver. }
  cbn. split; [done|]. split; [|done].
  rewrite lookup_fmap, lookup_insert_eq. cbn. unfold without_sticker. cbn.
  by destruct (decide (lit "sticker" ++ str_of_int (next_id p)
                       ≠ lit "sticker" ++ str_of_int (next_id p))).
Qed.

Lemma new_set_is_empty_witness :
  let out := run tg_handle
               (@get_or_create_set ascii_runtime header_pillow
                  (update_of empty_message) video) fresh_platform in
  out.1.1 = Ok (lit "my_bot__video_by_StickBot", lit "Alice's Video Stickers")
  ∧ registry out.1.2 !! lit "my_bot__video_by_StickBot"
    = Some {| ss_name := lit "my_bot__video_by_StickBot";
              ss_title := lit "Alice's Video Stickers";
              ss_owner := 42; ss_format := VIDEO; stickers := [] |}
  ∧ logged out.1.2 = [] ∧ sent out.1.2 = [].
Proof.
  apply (@new_set_is_empty ascii_runtime header_pillow fresh_platform
           (update_of empty_message) video); reflexivity.
Defined.

(** X13.  On the platform, [add_to_set] on an existing set returns the
    file identifier of the sticker it has just appended: afterwards the set
    is the old set followed by one sticker with that identifier, the given
    bytes and one tag, which is never empty; all other sets are as before.
    On a name without a set it raises the error of the platform and
    leaves the platform as it was. *)
Theorem add_to_set_appends (p : Platform) (update : Update) (name : str)
  (sticker_bytes : bytes) (kind : Kind) (emoji : str) :
  let out := run tg_handle (add_to_set update name sticker_bytes kind emoji) p in
  let fid := lit "sticker" ++ str_of_int (next_id p) in
  match registry p !! name with
  | Some s =>
      out.1.1 = Ok fid
      ∧ registry out.1.2 !! name
        = Some (with_stickers s
                  [{| st_file_id := fid; st_emoji := [bound_emoji emoji];
                      st_content := sticker_bytes |}])
      ∧ bound_emoji emoji ≠ []
      ∧ ∀ other, other ≠ name → registry out.1.2 !! other = registry p !! other
  | None =>
      out.1 = (Err (TelegramError (lit "Stickerset_invalid")), p)
  end.
Proof.
  cbn zeta. unfold add_to_set.
  assert (Hsame :
    (if decide (kind = static)
     then {| sticker := {| content := sticker_bytes; filename := lit "sticker.webp" |};
             emoji_list := [bound_emoji emoji] |}
     else {| sticker := {| content := sticker_bytes; filename := lit "sticker.webm" |};
             emoji_list := [bound_emoji emoji] |})
    = {| sticker := {| content := sticker_bytes;
                       filename := if decide (kind = static)
                                   then lit "sticker.webp" else lit "sticker.webm" |};
         emoji_list := [bound_emoji emoji] |}) by (by destruct (decide _)).
  rewrite Hsame. clear Hsame.
  destruct (registry p !! name) as [s|] eqn:Hs; cbn; rewrite Hs; cbn; [|done].
  rewrite lookup_insert_eq. cbn. rewrite last_snoc. cbn.
  repeat split.
  - apply lookup_insert_eq.
  - unfold bound_emoji, or_else. by destruct emoji.
  - intros other Hne. by apply lookup_insert_ne.
Qed.

(** After the set was made, a sticker added with an empty tag gets the
    default tag and the next identifier. *)
Example add_after_create :
  let goc := @get_or_create_set ascii_runtime header_pillow
               (update_of empty_message) video in
  let p1 := (run tg_handle goc fresh_platform).1.2 in
  let out := run tg_handle
               (add_to_set (update_of empty_message)
                  (lit "my_bot__video_by_StickBot") [Byte.x52] video []) p1 in
  out.1.1 = Ok (lit "sticker2")
  ∧ (fun s : StickerSet => st_emoji <$> stickers s)
      <$> registry out.1.2 !! lit "my_bot__video_by_StickBot"
    = Some [[DEFAULT_EMOJI]].
Proof. vm_compute. done. Qed.

(** ** More on the handler *)

#[local] Arguments get_or_create_set : simpl never.
#[local] Arguments add_to_set : simpl never.
#[local] Arguments tg_download_to_bytes : simpl never.
#[local] Arguments video_to_sticker_webm : simpl never.
#[local] Arguments image_to_sticker_webp : simpl never.
#[local] Arguments caption_emoji : simpl never.

Section HandlerFacts.
Context `{Runtime} `{Pillow}.
Context {W : Type} (h : handler (E := io) W).

(** A lifted program runs as the program itself, on the calls lifted. *)
Lemma run_lift_api {A} (t : Task api A) (w : W) :
  run h (lift (@InApi) t) w
  = let '(r, w', tr) := run (fun X c => h X (InApi c)) t w in
    (r, w', api_event <$> tr).
Proof.
  revert w. induction t as [a|e|X c k IH]; intros w; cbn; [done..|].
  destruct (h X (InApi c) w) as [r w']. rewrite IH.
  by destruct (run _ (k r) w') as [[??]?].
Qed.

Lemma api_events_no_os (tr : list (event api)) :
  Forall (fun ev => ¬ is_os_call ev) (api_event <$> tr).
Proof.
  apply Forall_fmap, Forall_forall. intros [X c r] _. cbn. tauto.
Qed.

Lemma lift_api_no_os {A} (t : Task api A) (w : W) :
  Forall (fun ev => ¬ is_os_call ev) (run h (lift (@InApi) t) w).2.
Proof.
  rewrite run_lift_api.
  destruct (run _ t w) as [[r w'] tr]. cbn. apply api_events_no_os.
Qed.

(** A property of all events holds for a sequence when it holds for the
    first part and for the second part after every result of the first. *)
Lemma trace_bind (P : event io → Prop) {A B} (t : Task io A) (f : A → Task io B) w :
  Forall P (run h t w).2 →
  (∀ a w1 tr1, run h t w = (Ok a, w1, tr1) → Forall P (run h (f a) w1).2) →
  Forall P (run h (t ≫= f) w).2.
Proof.
  intros Ht Hf. rewrite run_bind.
  destruct (run h t w) as [[[a|e] w1] tr1] eqn:Hrun; cbn in *; [|done].
  specialize (Hf a w1 tr1 eq_refl).
  destruct (run h (f a) w1) as [[r2 w2] tr2]. cbn in *.
  by apply Forall_app.
Qed.

Lemma trace_try_except (P : event io → Prop) {A} (t : Task io A) k w :
  Forall P (run h t w).2 →
  (∀ e w1, Forall P (run h (k e) w1).2) →
  Forall P (run h (try_except t k) w).2.
Proof.
  intros Ht Hk. rewrite run_try_except.
  destruct (run h t w) as [[[a|e] w1] tr1]; cbn in *; [done|].
  destruct (is_Exception e); [|done].
  specialize (Hk e w1).
  destruct (run h (k e) w1) as [[r2 w2] tr2]. cbn in *.
  by apply Forall_app.
Qed.

Lemma ends_bind (P : event io → Prop) {A B} (t : Task io A) (f : A → Task io B) w :
  (∀ a w1 tr1, run h t w = (Ok a, w1, tr1) → ends_with P (run h (f a) w1)) →
  ends_with P (run h (t ≫= f) w).
Proof.
  intros Hf. rewrite run_bind.
  destruct (run h t w) as [[[a|e] w1] tr1]; [|by intros ?].
  specialize (Hf a w1 tr1 eq_refl).
  destruct (run h (f a) w1) as [[r2 w2] tr2].
  intros b Hb. destruct (Hf b Hb) as (ev & Hlast & Hev).
  exists ev. split; [|done]. cbn in *.
  by rewrite last_app, Hlast.
Qed.

End HandlerFacts.

Section HandlerAnswers.
Context `{Runtime} `{Pillow}.
Context {W : Type} (h : handler (E := io) W).

(** What the [except] block of [handle_media] does when the log and the
    reply return. *)
Lemma run_failure_branch update msg e w :
  message update = Some msg →
  logs_and_replies h →
  ∃ w', run h (handle_media_except update e) w = (Ok tt, w', failure_events e).
Proof.
  intros Hmsg [Hlog Hreply]. unfold handle_media_except, the_message.
  rewrite Hmsg. cbn.
  destruct (Hlog (Exception (lit "Failed to process media: " ++ exn_str e)) w)
    as [w1 ->]. cbn.
  destruct (Hreply (Failed (exn_str e)) w1) as [w2 ->]. cbn.
  by eexists.
Qed.

(** When the [try] block of [handle_media] returns, its last call was the
    success notice. *)
Lemma try_block_ends_with_notice ff update w :
  logs_and_replies h →
  ends_with (is_success_notice update) (run h (handle_media_try ff update) w).
Proof.
  intros [_ Hreply]. unfold handle_media_try.
  apply ends_bind. intros [] w1 tr1 _.
  apply ends_bind. intros [src ext] w2 tr2 _.
  apply ends_bind. intros msg' w3 tr3 _.
  apply ends_bind. intros [kind sticker_bytes] w4 tr4 _.
  apply ends_bind. intros [name title] w5 tr5 Hgoc.
  rewrite run_lift_api in Hgoc.
  destruct (run _ (get_or_create_set update kind) w4) as [[r w'] tr] eqn:Hrun.
  injection Hgoc as -> _ _.
  apply goc_returns_its_name in Hrun as [bot [= -> ->]].
  apply ends_bind. intros fid w6 tr6 _.
  apply ends_bind. intros [] w7 tr7 _.
  cbn.
  destruct (Hreply (Added (set_title (effective_user update) kind)
                      (set_name (effective_user update) (format_opt (username bot)) kind))
              w7) as [w8 ->]. cbn.
  intros a _. eexists. split; [done|]. by exists kind, bot.
Qed.

End HandlerAnswers.

(** X14.  On any platform on which writing a log line and sending a text
    return, [handle_media] on an update with a message lets no [Exception]
    out.  When its [try] block returns, [handle_media] is that run and
    nothing more, and the last call of the run is the success notice: the
    text with the title and the name of a set of the user.  When the [try]
    block raises an [Exception], [handle_media] returns, and what it does
    after the block is to write the log line and then to send the failure
    notice with the text of that exception.  An exception that is not an
    [Exception] passes through. *)
Theorem handle_media_always_answers `{Runtime} `{Pillow} {W : Type}
  (h : handler (E := io) W) (ff : str) (update : Update) (msg : Message) (w : W) :
  message update = Some msg →
  logs_and_replies h →
  let body := run h (handle_media_try ff update) w in
  let out := run h (handle_media ff update) w in
  (∀ e, out.1.1 = Err e → is_Exception e = false)
  ∧ match body.1.1 with
    | Ok _ =>
        out = body ∧ ∃ ev, last out.2 = Some ev ∧ is_success_notice update ev
    | Err e =>
        if is_Exception e
        then out.1.1 = Ok tt ∧ out.2 = body.2 ++ failure_events e
        else out = body
    end.
Proof.
  intros Hmsg Hlr. cbn zeta. unfold handle_media. rewrite run_try_except.
  pose proof (try_block_ends_with_notice h ff update w Hlr) as Hbody.
  destruct (run h (handle_media_try ff update) w) as [[[u|e] w1] tr1];
    cbv beta iota; cbn [fst snd].
  - split; [by intros e|]. split; [done|]. by apply (Hbody u).
  - destruct (is_Exception e) eqn:He.
    + destruct (run_failure_branch h update msg e w1 Hmsg Hlr) as (w' & ->).
      cbn. split; [by intros e'|]. done.
    + cbn. split; [|done]. intros e' [= <-]. done.
Qed.

Lemma handle_media_always_answers_witness :
  let out := run (io_handle tg_handle failing_exec)
               (@handle_media ascii_runtime header_pillow (lit "ffmpeg")
                  (update_of empty_message))
               (fresh_platform, empty_fs None) in
  (∀ e, out.1.1 = Err e → is_Exception e = false)
  ∧ out.1.1 = Ok tt
  ∧ out.2 = [Ev (InApi (SendChatAction 42 UPLOAD_DOCUMENT)) (Ok tt)]
            ++ failure_events (RuntimeError (lit "Unsupported message type.")).
Proof.
  pose proof (@handle_media_always_answers ascii_runtime header_pillow _
                (io_handle tg_handle failing_exec) (lit "ffmpeg")
                (update_of empty_message) empty_message
                (fresh_platform, empty_fs None) eq_refl) as Hthm.
  apply Hthm.
  split; intros x [p fs]; eexists; reflexivity.
Defined.

(** An animation of a user without a video set: the set is made, the
    sticker added and sent back, and the user gets the success notice. *)
Example animation_is_added :
  sent (run (io_handle tg_handle working_exec)
          (@handle_media ascii_runtime header_pillow (lit "ffmpeg")
             (update_of animation_message))
          (platform_with_animation, empty_fs (Some (lit "/usr/bin/ffmpeg")))).1.2.1
  = [SentAction 42 UPLOAD_DOCUMENT;
     SentSticker (lit "sticker2");
     SentText (Added (lit "Alice's Video Stickers") (lit "my_bot__video_by_StickBot"))].
Proof. vm_compute. reflexivity. Qed.

(** A photo of a user without a static set: the set cannot be made, and
    the user gets the failure notice with the text of the exception of
    line 174. *)
Example first_photo_is_refused :
  sent (run (io_handle tg_handle failing_exec)
          (@handle_media ascii_runtime header_pillow (lit "ffmpeg")
             (update_of photo_message))
          (platform_with_photo, empty_fs None)).1.2.1
  = [SentAction 42 UPLOAD_DOCUMENT; SentText (Failed (lit "WEBP"))].
Proof. vm_compute. reflexivity. Qed.

Section PhotoFacts.
Context `{Runtime} `{Pillow}.

Lemma lower_jpg : lower (lit ".jpg") = lit ".jpg".
Proof. reflexivity. Qed.

(** A photo comes with the extension .jpg. *)
Lemma photo_download_ext {W : Type} (h : handler (E := api) W) update msg w b ext :
  message update = Some msg →
  photo msg ≠ [] →
  (run h (tg_download_to_bytes update) w).1.1 = Ok (b, ext) →
  ext = lit ".jpg".
Proof.
  intros Hmsg Hphoto. unfold tg_download_to_bytes. rewrite Hmsg.
  destruct (last (photo msg)) as [fid|] eqn:Hlast.
  - rewrite run_bind.
    destruct (run h (download fid) w) as [[[[file b']|e] w1] tr]; cbn; [|done].
    by intros [= <- <-].
  - by apply last_None in Hlast.
Qed.

Lemma the_message_no_os {W : Type} (h : handler (E := io) W) update attr w :
  Forall (fun ev => ¬ is_os_call ev) (run h (the_message update attr) w).2.
Proof. unfold the_message. destruct (message update); cbn; constructor. Qed.

End PhotoFacts.

(** X15.  On any platform, [handle_media] on a message with a photo and
    without video and animation makes no call into the operating system:
    a photo is never written to disk and never handed to the transcoder. *)
Theorem photo_is_not_transcoded `{Runtime} `{Pillow} {W : Type}
  (h : handler (E := io) W) (ff : str) (update : Update) (msg : Message) (w : W) :
  message update = Some msg →
  photo msg ≠ [] →
  video_att msg = None →
  animation msg = None →
  Forall (fun ev => ¬ is_os_call ev) (run h (handle_media ff update) w).2.
Proof.
  intros Hmsg Hphoto Hvideo Hanim.
  unfold handle_media, handle_media_try, handle_media_except.
  apply trace_try_except.
  - apply trace_bind; [apply lift_api_no_os|]. intros [] w1 tr1 _.
    apply trace_bind; [apply lift_api_no_os|]. intros [src ext] w2 tr2 Hdl.
    assert (Hext : ext = lit ".jpg").
    { rewrite run_lift_api in Hdl.
      pose proof (photo_download_ext (fun X c => h X (InApi c)) update msg w1 src ext
                    Hmsg Hphoto) as Hjpg.
      destruct (run _ (tg_download_to_bytes update) w1) as [[r w'] tr].
      injection Hdl as -> _ _. by apply Hjpg. }
    subst ext.
    apply trace_bind; [apply the_message_no_os|]. intros msg' w3 tr3 Hthe.
    assert (msg' = msg) as ->.
    { unfold the_message in Hthe. rewrite Hmsg in Hthe. cbn in Hthe. congruence. }
    rewrite lower_jpg, Hvideo, Hanim.
    change (bool_decide (lit ".jpg" ∈ VIDEO_EXTS) || bool_decide (is_Some None)
            || bool_decide (is_Some None)) with false.
    cbn match.
    apply trace_bind.
    { apply trace_bind; [|intros; cbn; constructor].
      destruct (image_to_sticker_webp src); cbn; constructor. }
    intros [kind sticker_bytes] w4 tr4 _.
    apply trace_bind; [apply lift_api_no_os|]. intros [name title] w5 tr5 _.
    apply trace_bind; [apply lift_api_no_os|]. intros fid w6 tr6 _.
    apply trace_bind; [apply lift_api_no_os|]. intros [] w7 tr7 _.
    apply lift_api_no_os.
  - intros e w1.
    apply trace_bind; [apply lift_api_no_os|]. intros [] w2 tr2 _.
    apply trace_bind; [apply the_message_no_os|]. intros msg' w3 tr3 _.
    apply lift_api_no_os.
Qed.

Lemma photo_is_not_transcoded_witness :
  let out := run (io_handle tg_handle failing_exec)
               (@handle_media ascii_runtime header_pillow (lit "ffmpeg")
                  (update_of photo_message))
               (platform_with_photo, empty_fs None) in
  out.1.1 = Ok tt ∧ Forall (fun ev => ¬ is_os_call ev) out.2.
Proof.
  split; [reflexivity|].
  apply (@photo_is_not_transcoded ascii_runtime header_pillow _
           (io_handle tg_handle failing_exec) (lit "ffmpeg")
           (update_of photo_message) photo_message); [reflexivity|discriminate|done..].
Defined.

(** ** The transcoder on clips that are not higher than wide *)

Section LandscapeFacts.
Import Ffmpeg.

Lemma av_rescale_le a b c k :
  0 < c → a * b <= k * c → av_rescale a b c <= k.
Proof.
  intros Hc Hab. unfold av_rescale.
  assert (c / 2 < c) by (apply Z.div_lt; lia).
  apply Z.lt_succ_r, Z.div_lt_upper_bound; [done|]. nia.
Qed.

Lemma scale_size_landscape iw ih :
  0 < ih <= iw →
  let '(w', h') := scale_size iw ih (Z.min 512 iw) (-2) decrease in
  w' <= Z.min 512 iw ∧ h' <= Z.min 512 iw ∧ h' <= ih.
Proof.
  intros Hi. unfold scale_size.
  change (-2 <? -1) with true. change (-2 <? 0) with true.
  destruct (Z.ltb_spec (Z.min 512 iw) 0) as [?|_]; [lia|].
  destruct (Z.min 512 iw <? -1); cbn;
    (destruct (Z.ltb_spec (Z.min 512 iw) 0) as [?|_]; [lia|]).
  all: split; [lia|]; split.
  all: etrans; [apply Z.le_min_l|]; apply av_rescale_le; nia.
Qed.

End LandscapeFacts.

(** X16.  For a clip that is not higher than wide, the options of
    [ffmpeg_cmd], read as ffmpeg documents its [scale] filter, give a clip
    that fits into 512x512 and is in neither direction larger than the
    input. *)
Theorem landscape_clip_fits (in_path out_path : str) (c : Ffmpeg.Clip) :
  0 < Ffmpeg.height c <= Ffmpeg.width c →
  let c' := Ffmpeg.transcode (Ffmpeg.sticker_options in_path out_path) c in
  Ffmpeg.longer_side c' <= 512
  ∧ Ffmpeg.width c' <= Ffmpeg.width c
  ∧ Ffmpeg.height c' <= Ffmpeg.height c.
Proof.
  intros Hc. destruct c as [iw ih ms r a]. cbn [Ffmpeg.width Ffmpeg.height] in Hc.
  cbn zeta. unfold Ffmpeg.transcode, Ffmpeg.sticker_options, Ffmpeg.longer_side.
  cbn [foldl Ffmpeg.apply_option Ffmpeg.apply_filter Ffmpeg.eval
       Ffmpeg.width Ffmpeg.height Ffmpeg.millis Ffmpeg.rate Ffmpeg.audio].
  pose proof (scale_size_landscape iw ih Hc) as Hscale.
  destruct (Ffmpeg.scale_size iw ih (Z.min 512 iw) (-2) Ffmpeg.decrease) as [w' h'].
  cbn [Ffmpeg.width Ffmpeg.height]. lia.
Qed.

Lemma landscape_clip_fits_witness :
  let c := {| Ffmpeg.width := 1280; Ffmpeg.height := 720; Ffmpeg.millis := 10000;
              Ffmpeg.rate := 60000; Ffmpeg.audio := true |} in
  let c' := Ffmpeg.transcode (Ffmpeg.sticker_options [] []) c in
  (Ffmpeg.width c', Ffmpeg.height c') = (512, 288)
  ∧ Ffmpeg.longer_side c' <= 512.
Proof.
  split; [reflexivity|].
  apply (landscape_clip_fits [] []
           {| Ffmpeg.width := 1280; Ffmpeg.height := 720; Ffmpeg.millis := 10000;
              Ffmpeg.rate := 60000; Ffmpeg.audio := true |}).
  cbn. lia.
Defined.

(** ** Two callers at once *)

#[local] Arguments race_name : simpl never.
#[local] Arguments race_title : simpl never.
#[local] Arguments remove_placeholder : simpl never.

Section RunStepFacts.
Context {E : Type → Type} {W : Type} (h : handler (E := E) W).

Lemma outcome_step {A} (t : Task E A) (w : W) :
  outcome h t w = outcome h (step h t w).1 (step h t w).2.
Proof.
  destruct t as [a|e|X c k]; [done..|].
  unfold outcome. cbn. destruct (h X c w) as [r w']. cbn.
  by destruct (run h (k r) w') as [[??]?].
Qed.

Lemma step_Call {A X} (c : E X) (k : result X → Task E A) (w : W) :
  step h (Call c k) w = (k (h X c w).1, (h X c w).2).
Proof. cbn. by destruct (h X c w). Qed.

End RunStepFacts.

Section PlatformKeeps.

(** No call takes a set away, and none changes the bot or the naming
    rules. *)
Lemma tg_handle_keeps {X} (c : api X) (p : Platform) :
  bot_account (tg_handle X c p).2 = bot_account p
  ∧ accepts (tg_handle X c p).2 = accepts p
  ∧ ∀ n, is_Some (registry p !! n) → is_Some (registry (tg_handle X c p).2 !! n).
Proof.
  destruct c; cbn; repeat case_match; cbn; repeat split; try done.
  - intros n Hn. destruct (decide (name = n)) as [->|Hne].
    + rewrite lookup_insert_eq. by eexists.
    + by rewrite lookup_insert_ne.
  - intros n [s Hs]. rewrite lookup_fmap, Hs. by eexists.
  - intros n Hn. destruct (decide (name = n)) as [->|Hne].
    + rewrite lookup_insert_eq. by eexists.
    + by rewrite lookup_insert_ne.
Qed.

End PlatformKeeps.

Section RaceFacts.
Context `{Runtime} `{Pillow}.
Context (update : Update) (bot : User).

Local Abbreviation name := (race_name update bot).
Local Abbreviation title := (race_title update).
Local Abbreviation user := (effective_user update).

Lemma returns_name_step t p :
  returns_name update bot t →
  returns_name update bot (step tg_handle t p).1.
Proof.
  destruct t as [a|e|X c k]; [done..|].
  intros Ht. rewrite step_Call. cbn. apply Ht.
Qed.

(** After its create call has returned, a caller returns the name. *)
Lemma returns_name_after_create :
  returns_name update bot
    (remove_placeholder name ≫= fun _ => mret (name, title)).
Proof.
  unfold remove_placeholder. cbn. intros p.
  destruct (registry p !! name) as [s|]; cbn.
  - destruct (stickers s) as [|x l]; cbn; [done|]. intros p1.
    destruct (bool_decide _); cbn; [done|]. by intros p2.
  - by intros p1.
Qed.

Lemma step_get_me p :
  bot_account p = bot →
  step tg_handle (get_or_create_set update video) p
  = (after_get_me update bot, p).
Proof. intros <-. reflexivity. Qed.

Lemma step_lookup p :
  step tg_handle (after_get_me update bot) p
  = (match registry p !! name with
     | Some _ => Ret (name, title)
     | None => create_set user video name title
     end, p).
Proof.
  unfold after_get_me, lookup_set. cbn.
  by destruct (registry p !! name).
Qed.

Lemma step_create p :
  accepts p name = true →
  ∃ p', step tg_handle (create_set user video name title) p
        = (match registry p !! name with
           | Some _ => Raise (occupied)
           | None => remove_placeholder name ≫= fun _ => mret (name, title)
           end, p')
        ∧ is_Some (registry p' !! name)
        ∧ bot_account p' = bot_account p ∧ accepts p' = accepts p.
Proof.
  intros Hacc. rewrite create_set_video. cbn.
  destruct (registry p !! name) as [s|] eqn:Hs; cbn.
  - exists p. rewrite Hs. by repeat split.
  - rewrite Hacc. cbn. eexists. split; [done|]. cbn.
    rewrite lookup_insert_eq. by repeat split.
Qed.

End RaceFacts.

Section InterleaveFacts.
Context {E : Type → Type} {W : Type} (h : handler (E := E) W).

Lemma interleave_nil_step_left {A B} (t1 : Task E A) (t2 : Task E B) (w : W) :
  interleave h [] t1 t2 w
  = interleave h [] (step h t1 w).1 t2 (step h t1 w).2.
Proof. cbn. by rewrite (outcome_step h t1 w). Qed.

Lemma interleave_nil_step_right {A B} (t1 : Task E A) (t2 : Task E B) (w : W) :
  (∀ X (c : E X) k, t1 ≠ Call c k) →
  interleave h [] t1 t2 w
  = interleave h [] t1 (step h t2 w).1 (step h t2 w).2.
Proof.
  intros Hdone. destruct t1 as [a|e|X c k]; [| |by destruct (Hdone X c k)].
  all: cbn; by rewrite (outcome_step h t2 w).
Qed.

End InterleaveFacts.

Section RaceInvariant.
Context `{Runtime} `{Pillow}.
Context (update : Update) (bot : User).

Local Abbreviation name := (race_name update bot).
Local Abbreviation title := (race_title update).
Local Abbreviation user := (effective_user update).
Local Abbreviation inv := (race_invariant update bot).

Lemma step_keeps (t : Task api (str * str)) p :
  bot_account (step tg_handle t p).2 = bot_account p
  ∧ accepts (step tg_handle t p).2 = accepts p
  ∧ ∀ n, is_Some (registry p !! n) → is_Some (registry (step tg_handle t p).2 !! n).
Proof.
  destruct t as [a|e|X c k]; [done..|].
  rewrite step_Call. cbn [snd]. apply tg_handle_keeps.
Qed.

Lemma race_invariant_sym t1 t2 p : inv t1 t2 p → inv t2 t1 p.
Proof. unfold race_invariant. tauto. Qed.

(** A step of the first caller keeps the invariant. *)
Lemma race_invariant_step t1 t2 p :
  inv t1 t2 p → inv (step tg_handle t1 p).1 t2 (step tg_handle t1 p).2.
Proof.
  intros (Hbot & Hacc & Hcases).
  destruct (step_keeps t1 p) as (Hbot' & Hacc' & Hmono).
  split; [congruence|]. split; [by rewrite Hacc'|].
  destruct Hcases as [(Hnone & Hb1 & Hb2)|(Hsome & Ho1 & Ho2 & Hw)].
  - destruct Hb1 as [-> | [-> | ->]].
    + rewrite (step_get_me update bot p Hbot). cbn [fst snd].
      left. unfold before_create. tauto.
    + rewrite step_lookup, Hnone. cbn [fst snd].
      left. unfold before_create. tauto.
    + destruct (step_create update bot p Hacc) as (p' & Hstep & Hsome' & _).
      rewrite Hnone in Hstep. rewrite Hstep. cbn [fst snd].
      right. pose proof (returns_name_after_create update bot) as Hret.
      unfold on_the_way. tauto.
  - right. split; [by apply Hmono|].
    assert (Hw' : returns_name update bot (step tg_handle t1 p).1
                  ∨ returns_name update bot t2).
    { destruct Hw as [Hw|Hw]; [left; by apply returns_name_step | by right]. }
    split; [|by split].
    destruct Ho1 as [[-> | [-> | ->]] | [Hret | ->]].
    + rewrite (step_get_me update bot p Hbot). cbn [fst].
      left. unfold before_create. tauto.
    + rewrite step_lookup. destruct Hsome as [s ->]. cbn [fst].
      right. left. done.
    + destruct (step_create update bot p Hacc) as (p' & Hstep & _).
      destruct Hsome as [s Hs]. rewrite Hs in Hstep. rewrite Hstep. cbn [fst].
      right. by right.
    + right. left. by apply returns_name_step.
    + right. by right.
Qed.

(** Two callers that have both finished under the invariant. *)
Lemma race_invariant_finished t1 t2 p :
  (∀ X (c : api X) k, t1 ≠ Call c k) →
  (∀ X (c : api X) k, t2 ≠ Call c k) →
  inv t1 t2 p →
  race_outcome update bot (interleave tg_handle [] t1 t2 p).
Proof.
  intros Hd1 Hd2 (Hbot & Hacc & Hcases).
  assert (Hstarted : ∀ t, (∀ X (c : api X) k, t ≠ Call c k) →
            ¬ before_create update bot t).
  { intros t Hd [-> | [-> | ->]]; eapply Hd; reflexivity. }
  destruct Hcases as [(_ & Hb1 & _)|(Hsome & Ho1 & Ho2 & Hw)];
    [by destruct (Hstarted t1 Hd1)|].
  assert (Hend : ∀ t, (∀ X (c : api X) k, t ≠ Call c k) →
            on_the_way update bot t →
            (t = Ret (name, title) ∧ returns_name update bot t)
            ∨ (t = Raise (occupied) ∧ ¬ returns_name update bot t)).
  { intros t Hd [Hb | [Hret | ->]].
    - by destruct (Hstarted t Hd).
    - destruct t as [a|e|X c k]; [|done|by destruct (Hd X c k)].
      cbn in Hret. subst a. by left.
    - right. split; [done|]. by intros []. }
  destruct (Hend t1 Hd1 Ho1) as [[-> Hr1]|[-> Hn1]];
    destruct (Hend t2 Hd2 Ho2) as [[-> Hr2]|[-> Hn2]]; cbn.
  all: repeat split; auto.
  tauto.
Qed.

End RaceInvariant.

Section RaceEnd.
Context `{Runtime} `{Pillow}.
Context (update : Update) (bot : User).

Local Abbreviation inv := (race_invariant update bot).
Local Abbreviation ends_well := (race_outcome update bot).

(** When the first caller has finished, the second runs to its end. *)
Lemma race_finish_second t1 t2 :
  (∀ X (c : api X) k, t1 ≠ Call c k) →
  ∀ p, inv t1 t2 p → ends_well (interleave tg_handle [] t1 t2 p).
Proof.
  intros Hd1. induction t2 as [a|e|X c k IH]; intros p Hinv.
  - by apply race_invariant_finished.
  - by apply race_invariant_finished.
  - rewrite interleave_nil_step_right by done. rewrite step_Call. cbn [fst snd].
    apply IH. apply race_invariant_sym.
    pose proof (race_invariant_step update bot (Call c k) t1 p
                  (race_invariant_sym update bot _ _ _ Hinv)) as Hstep.
    by rewrite step_Call in Hstep.
Qed.

(** With the schedule used up, the first caller runs to its end and then
    the second. *)
Lemma race_finish t1 t2 :
  ∀ p, inv t1 t2 p → ends_well (interleave tg_handle [] t1 t2 p).
Proof.
  induction t1 as [a|e|X c k IH]; intros p Hinv.
  - by apply race_finish_second.
  - by apply race_finish_second.
  - rewrite interleave_nil_step_left. rewrite step_Call. cbn [fst snd].
    apply IH.
    pose proof (race_invariant_step update bot (Call c k) t2 p Hinv) as Hstep.
    by rewrite step_Call in Hstep.
Qed.

Lemma race_any_schedule sched :
  ∀ t1 t2 p, inv t1 t2 p → ends_well (interleave tg_handle sched t1 t2 p).
Proof.
  induction sched as [|[] sched IH]; intros t1 t2 p Hinv.
  - by apply race_finish.
  - cbn [interleave].
    pose proof (race_invariant_step update bot t1 t2 p Hinv) as Hstep.
    destruct (step tg_handle t1 p) as [t1' p']. by apply IH.
  - cbn [interleave].
    pose proof (race_invariant_step update bot t2 t1 p
                  (race_invariant_sym update bot _ _ _ Hinv)) as Hstep.
    destruct (step tg_handle t2 p) as [t2' p'].
    by apply IH, race_invariant_sym.
Qed.

End RaceEnd.

(** X17.  Two callers of [get_or_create_set] for the same owner and the
    kind video on one event loop, on a platform that has no such set and
    admits its name: however the event loop interleaves their calls, at
    least one caller returns the name and the title; the other returns them
    too or gets the refusal of its create call raised ("name is already
    occupied"); and in the end the set exists. *)
Theorem race_has_a_winner `{Runtime} `{Pillow}
  (p : Platform) (update : Update) (sched : list bool) :
  let nt := (set_name (effective_user update)
               (format_opt (username (bot_account p))) video,
             set_title (effective_user update) video) in
  let busy := Err (TelegramError (lit "Sticker set name is already occupied")) in
  registry p !! nt.1 = None →
  accepts p nt.1 = true →
  let '(r1, r2, p') :=
    interleave tg_handle sched
      (get_or_create_set update video) (get_or_create_set update video) p in
  (r1 = Ok nt ∨ r2 = Ok nt)
  ∧ (r1 = Ok nt ∨ r1 = busy)
  ∧ (r2 = Ok nt ∨ r2 = busy)
  ∧ is_Some (registry p' !! nt.1).
Proof.
  cbn zeta. cbn [fst]. intros Hnone Hacc.
  apply (race_any_schedule update (bot_account p) sched).
  split; [done|]. split; [exact Hacc|].
  left. unfold before_create. tauto.
Qed.

Lemma race_has_a_winner_witness :
  let t := @get_or_create_set ascii_runtime header_pillow
             (update_of empty_message) video in
  let '(r1, r2, p') := interleave tg_handle [false; true; false; true; false] t t
                         fresh_platform in
  r2 = Ok (lit "my_bot__video_by_StickBot", lit "Alice's Video Stickers")
  ∧ r1 = Err (TelegramError (lit "Sticker set name is already occupied"))
  ∧ is_Some (registry p' !! lit "my_bot__video_by_StickBot").
Proof.
  cbn zeta.
  pose proof (@race_has_a_winner ascii_runtime header_pillow fresh_platform
                (update_of empty_message) [false; true; false; true; false]
                eq_refl eq_refl) as Hrace.
  cbn zeta in Hrace.
  destruct (interleave tg_handle [false; true; false; true; false] _ _ fresh_platform)
    as [[r1 r2] p'] eqn:Hrun.
  vm_compute in Hrun. injection Hrun as <- <- <-.
  split; [reflexivity|]. split; [reflexivity|].
  apply Hrace.
Defined.

(** Two callers for a static set that does not exist: both raise at the
    look-up of the format, and no set is made. *)
Example static_race_has_no_winner :
  let t := @get_or_create_set ascii_runtime header_pillow
             (update_of empty_message) static in
  interleave tg_handle [false; true; false; true; false] t t fresh_platform
  = (Err (AttributeError (lit "WEBP")), Err (AttributeError (lit "WEBP")),
     fresh_platform).
Proof. reflexivity. Qed.
